(** * Address book: validated contact records kept in a name-keyed mapping

    A shallow embedding of [src/main.py] (classes [Field], [Name], [Phone],
    [Record] and [AddressBook]) and the properties of its operations.

    Python objects with identity and mutable state ([Record] and
    [AddressBook] instances) live in a store indexed by addresses; methods
    are computations in a state-and-exception monad over that store.
    [Field] objects are never mutated by the program, so they are carried
    as values tagged with the address they were allocated at. A
    dictionary is a finite map: the order of its entries, which only the
    printing loop of the script observes, is not modelled. *)

From Stdlib Require Import String Ascii NArith.
From stdpp Require Import gmap list fin_maps.

Local Open Scope N_scope.
Local Open Scope nat_scope.

(** ** Python [str]: a sequence of Unicode code points *)

Definition char := N.
Definition str := list char.

(** A source literal (all literals of the program are ASCII). *)
Definition lit (s : string) : str := map N_of_ascii (list_ascii_of_string s).

(** [len(s)]. *)
Definition len (s : str) : nat := length s.

(** Truth value of a [str]: the empty string is the only false one. *)
Definition truthy (s : str) : bool := negb (len s =? 0).

(** [a == b] on [str]. *)
Definition str_eq (a b : str) : bool := bool_decide (a = b).

(** The code points [c] for which [chr(c).isdigit()] holds: those whose
    Unicode property Numeric_Type is Digit or Decimal, as inclusive ranges
    (Unicode 14.0.0, the table of CPython 3.11). *)
Definition digit_ranges : list (N * N) :=
  [
    (48, 57); (178, 179); (185, 185); (1632, 1641); (1776, 1785);
    (1984, 1993); (2406, 2415); (2534, 2543); (2662, 2671); (2790, 2799);
    (2918, 2927); (3046, 3055); (3174, 3183); (3302, 3311); (3430, 3439);
    (3558, 3567); (3664, 3673); (3792, 3801); (3872, 3881); (4160, 4169);
    (4240, 4249); (4969, 4977); (6112, 6121); (6160, 6169); (6470, 6479);
    (6608, 6618); (6784, 6793); (6800, 6809); (6992, 7001); (7088, 7097);
    (7232, 7241); (7248, 7257); (8304, 8304); (8308, 8313); (8320, 8329);
    (9312, 9320); (9332, 9340); (9352, 9360); (9450, 9450); (9461, 9469);
    (9471, 9471); (10102, 10110); (10112, 10120); (10122, 10130);
    (42528, 42537); (43216, 43225); (43264, 43273); (43472, 43481);
    (43504, 43513); (43600, 43609); (44016, 44025); (65296, 65305);
    (66720, 66729); (68160, 68163); (68912, 68921); (69216, 69224);
    (69714, 69722); (69734, 69743); (69872, 69881); (69942, 69951);
    (70096, 70105); (70384, 70393); (70736, 70745); (70864, 70873);
    (71248, 71257); (71360, 71369); (71472, 71481); (71904, 71913);
    (72016, 72025); (72784, 72793); (73040, 73049); (73120, 73129);
    (92768, 92777); (92864, 92873); (93008, 93017); (120782, 120831);
    (123200, 123209); (123632, 123641); (125264, 125273); (127232, 127242);
    (130032, 130041)
  ]%N.

Definition char_isdigit (c : char) : bool :=
  existsb (fun r => (fst r <=? c)%N && (c <=? snd r)%N) digit_ranges.

(** [s.isdigit()]: every character is a digit and there is at least one. *)
Definition isdigit (s : str) : bool :=
  match s with
  | [] => false
  | _ => forallb char_isdigit s
  end.

(** [sep.join(parts)]. *)
Fixpoint join (sep : str) (parts : list str) : str :=
  match parts with
  | [] => []
  | [p] => p
  | p :: rest => p ++ sep ++ join sep rest
  end.

(** ** Objects, store and exceptions *)

Definition addr := nat.

(** An instance of [Field] or of one of its subclasses: the address it was
    allocated at and its [value] attribute. *)
Record FieldObj := mkField { id : addr; value : str }.

(** The attributes of a [Record] instance. *)
Record RecordObj := mkRecord { name : FieldObj; phones : list FieldObj }.

(** The store: [Record] instances, [AddressBook] instances (their [data]
    dictionaries, from name to the address of a [Record]) and the next
    address to allocate. *)
Record State := mkState {
  records : gmap addr RecordObj;
  books : gmap addr (gmap str addr);
  next_id : addr
}.

Definition with_records (m : gmap addr RecordObj) (st : State) : State :=
  {| records := m; books := books st; next_id := next_id st |}.

Definition with_books (m : gmap addr (gmap str addr)) (st : State) : State :=
  {| records := records st; books := m; next_id := next_id st |}.

Definition with_next_id (n : addr) (st : State) : State :=
  {| records := records st; books := books st; next_id := n |}.

(** A raised exception: its class and its message. *)
Record exception := mkExc { exc_class : string; exc_msg : string }.

Definition ValueError (msg : string) : exception :=
  {| exc_class := "ValueError"; exc_msg := msg |}.

(** The outcome of a call: a value, an exception, or [Stuck] when the
    receiver is not an object of the expected class (no run of the
    program reaches it). *)
Inductive outcome (A : Type) : Type :=
| Return (a : A) (st : State)
| Raise (e : exception) (st : State)
| Stuck.
Arguments Return {A} a st.
Arguments Raise {A} e st.
Arguments Stuck {A}.

Definition M (A : Type) : Type := State -> outcome A.

Definition ret {A} (a : A) : M A := fun st => Return a st.

Definition bind {A B} (m : M A) (k : A -> M B) : M B :=
  fun st =>
    match m st with
    | Return a st' => k a st'
    | Raise e st' => Raise e st'
    | Stuck => Stuck
    end.

Definition raise {A} (e : exception) : M A := fun st => Raise e st.

Notation "x <- m ;; k" := (bind m (fun x => k))
  (at level 100, m at next level, right associativity).
Notation "m ;;; k" := (bind m (fun _ => k))
  (at level 100, right associativity).

(** [object.__new__]: a fresh address. *)
Definition new : M addr :=
  fun st => Return (next_id st) (with_next_id (S (next_id st)) st).

Definition get_record (self : addr) : M RecordObj :=
  fun st => match records st !! self with
            | Some r => Return r st
            | None => Stuck
            end.

Definition set_record (self : addr) (r : RecordObj) : M unit :=
  fun st => Return tt (with_records (<[self := r]> (records st)) st).

Definition get_phones (self : addr) : M (list FieldObj) :=
  r <- get_record self ;; ret (phones r).

Definition set_phones (self : addr) (l : list FieldObj) : M unit :=
  r <- get_record self ;; set_record self {| name := name r; phones := l |}.

Definition get_data (self : addr) : M (gmap str addr) :=
  fun st => match books st !! self with
            | Some d => Return d st
            | None => Stuck
            end.

Definition set_data (self : addr) (d : gmap str addr) : M unit :=
  fun st => Return tt (with_books (<[self := d]> (books st)) st).

(** ** class Field *)

Module Field.
(** [Field.__init__]: [self.value = value]. *)
Definition __init__ (self : addr) (value : str) : M FieldObj :=
  ret {| id := self; value := value |}.

(** [Field.__str__]: [str(self.value)]. *)
Definition __str__ (self : FieldObj) : str := value self.
End Field.

(** ** class Name(Field) *)

Module Name.
Definition __init__ (value : str) : M FieldObj :=
  self <- new ;;
  if negb (truthy value) then raise (ValueError "Name cannot be empty.")
  else Field.__init__ self value.
End Name.

(** ** class Phone(Field) *)

Module Phone.
Definition __init__ (value : str) : M FieldObj :=
  self <- new ;;
  if negb (isdigit value) || negb (len value =? 10)
  then raise (ValueError "Phone number must consist of exactly 10 digits.")
  else Field.__init__ self value.
End Phone.

(** [x == y] on [Field] objects. Their classes define no [__eq__], so
    this is object identity; an object is never mutated, hence two tagged
    values denote the same object exactly when they coincide (same
    address, and then same value). Distinct objects holding the same
    string are not equal. *)
Definition obj_eq (x y : FieldObj) : bool :=
  (id x =? id y) && str_eq (value x) (value y).

(** [l.remove(x)]: deletes the first item equal to [x]; [None] stands for
    the [ValueError] raised when there is none. *)
Fixpoint list_remove (x : FieldObj) (l : list FieldObj) : option (list FieldObj) :=
  match l with
  | [] => None
  | y :: rest =>
      if obj_eq y x then Some rest
      else match list_remove x rest with
           | Some rest' => Some (y :: rest')
           | None => None
           end
  end.

(** ** class Record *)

Module Record.
Definition __init__ (name : str) : M addr :=
  self <- new ;;
  n <- Name.__init__ name ;;
  set_record self {| name := n; phones := [] |} ;;;
  ret self.

(** [self.phones.append(Phone(phone))]: the list is loaded, the argument
    is evaluated, then the list is extended in place. *)
Definition add_phone (self : addr) (phone : str) : M unit :=
  l <- get_phones self ;;
  p <- Phone.__init__ phone ;;
  set_phones self (l ++ [p]).

(** The [for p in self.phones] loop of [remove_phone] over the items
    [it] still to visit; the list is only changed right before [break]. *)
Fixpoint remove_phone_loop (self : addr) (phone : str) (it : list FieldObj)
  : M unit :=
  match it with
  | [] => ret tt
  | p :: rest =>
      if str_eq (value p) phone then
        l <- get_phones self ;;
        match list_remove p l with
        | Some l' => set_phones self l'
        | None => raise (ValueError "list.remove(x): x not in list")
        end
      else remove_phone_loop self phone rest
  end.

Definition remove_phone (self : addr) (phone : str) : M unit :=
  l <- get_phones self ;;
  remove_phone_loop self phone l.

(** The [for idx, p in enumerate(self.phones)] loop of [edit_phone];
    [idx] is the index of the head of [it]. *)
Fixpoint edit_phone_loop (self : addr) (old_phone new_phone : str)
    (idx : nat) (it : list FieldObj) : M unit :=
  match it with
  | [] => ret tt
  | p :: rest =>
      if str_eq (value p) old_phone then
        q <- Phone.__init__ new_phone ;;
        l <- get_phones self ;;
        set_phones self (<[idx := q]> l)
      else edit_phone_loop self old_phone new_phone (S idx) rest
  end.

Definition edit_phone (self : addr) (old_phone new_phone : str) : M unit :=
  l <- get_phones self ;;
  edit_phone_loop self old_phone new_phone 0 l.

Fixpoint find_phone_loop (phone : str) (it : list FieldObj) : str :=
  match it with
  | [] => lit ""
  | p :: rest =>
      if str_eq (value p) phone then value p
      else find_phone_loop phone rest
  end.

Definition find_phone (self : addr) (phone : str) : M str :=
  l <- get_phones self ;;
  ret (find_phone_loop phone l).

Definition __str__ (self : addr) : M str :=
  r <- get_record self ;;
  let phones_str := join (lit "; ") (map value (phones r)) in
  ret (lit "Contact name: " ++ value (name r) ++ lit ", phones: "
       ++ phones_str).
End Record.

(** ** class AddressBook(UserDict) *)

Module AddressBook.
(** [UserDict.__init__] with no argument: [self.data = {}]. *)
Definition __init__ : M addr :=
  self <- new ;;
  set_data self ∅ ;;;
  ret self.

(** [self.data[record.name.value] = record]. *)
Definition add_record (self record : addr) : M unit :=
  d <- get_data self ;;
  r <- get_record record ;;
  set_data self (<[value (name r) := record]> d).

(** [self.data.get(name)]; [None] is Python's [None]. *)
Definition find (self : addr) (name : str) : M (option addr) :=
  d <- get_data self ;;
  ret (d !! name).

Definition delete (self : addr) (name : str) : M unit :=
  d <- get_data self ;;
  if bool_decide (is_Some (d !! name)) then set_data self (base.delete name d)
  else ret tt.
End AddressBook.

Definition empty_state : State :=
  {| records := ∅; books := ∅; next_id := 0 |}.

(** The calls of the script run under [__name__ == '__main__'], in order
    and without its printing; the result collects what the script prints
    after the edit (the rendering of John's record, the phone found) and
    the lookup of Jane after her deletion. *)
Definition main : M (str * str * option addr) :=
  book <- AddressBook.__init__ ;;
  john_record <- Record.__init__ (lit "John") ;;
  Record.add_phone john_record (lit "1234567890") ;;;
  Record.add_phone john_record (lit "5555555555") ;;;
  AddressBook.add_record book john_record ;;;
  jane_record <- Record.__init__ (lit "Jane") ;;
  Record.add_phone jane_record (lit "9876543210") ;;;
  AddressBook.add_record book jane_record ;;;
  found <- AddressBook.find book (lit "John") ;;
  match found with
  | None =>
      raise {| exc_class := "AttributeError";
               exc_msg := "'NoneType' object has no attribute 'edit_phone'" |}
  | Some john =>
      Record.edit_phone john (lit "1234567890") (lit "1112223333") ;;;
      shown <- Record.__str__ john ;;
      found_phone <- Record.find_phone john (lit "5555555555") ;;
      AddressBook.delete book (lit "Jane") ;;;
      jane <- AddressBook.find book (lit "Jane") ;;
      ret (shown, found_phone, jane)
  end.

(** ** The specification's wording of a valid phone number

    "Exactly 10 decimal-digit characters", written from the specification
    and not from the code, to be compared with the test made by
    [Phone.__init__]. *)

Definition is_decimal_digit (c : char) : bool := (48 <=? c)%N && (c <=? 57)%N.

Definition spec_ten_decimal_digits (s : str) : bool :=
  (len s =? 10) && forallb is_decimal_digit s.

(** The specification's wording of the phones part of a rendering: the
    values in stored order, each one after the first preceded by the
    separator. *)
Definition spec_joined (sep : str) (parts : list str) : str :=
  match parts with
  | [] => []
  | p :: rest => p ++ concat (map (fun q => sep ++ q) rest)
  end.

(** The entries of a dictionary stored under the key [n]. *)
Definition entries_under (n : str) (d : gmap str addr) : list (str * addr) :=
  filter (fun kv => kv.1 = n) (map_to_list d).

(** Ten times SUPERSCRIPT TWO (U+00B2), a character that is a digit for
    [str.isdigit] and is not a decimal digit (Numeric_Type Digit, general
    category No). *)
Definition superscript_twos : str := repeat 178%N 10.

(** The validation errors, as the constructors raise them. *)
Definition name_error : exception := ValueError "Name cannot be empty.".
Definition phone_error : exception :=
  ValueError "Phone number must consist of exactly 10 digits.".

(** ** A sample store

    John's record at address 1, holding two phones of which the second
    number is stored twice, inside a book at address 0. *)

Definition john_obj : RecordObj :=
  {| name := {| id := 2; value := lit "John" |};
     phones := [ {| id := 3; value := lit "1234567890" |};
                 {| id := 4; value := lit "5555555555" |};
                 {| id := 5; value := lit "5555555555" |} ] |}.

Definition john_state : State :=
  {| records := {[ 1 := john_obj ]};
     books := {[ 0 := {[ lit "John" := 1 ]} ]};
     next_id := 6 |}.

(** A store with an empty book at address 0 and two records named John,
    at addresses 1 and 6. *)
Definition other_john : RecordObj :=
  {| name := {| id := 7; value := lit "John" |};
     phones := [ {| id := 8; value := lit "9876543210" |} ] |}.

Definition two_johns_state : State :=
  {| records := {[ 1 := john_obj; 6 := other_john ]};
     books := {[ 0 := ∅ ]};
     next_id := 9 |}.

(** ** Clients of the classes

    A client builds records and books and calls their methods, possibly
    going on after an exception. A [call] is one constructor or method
    call, [exec] runs it, and [reachable] collects the stores a client
    can be in, starting from the empty one. *)

Inductive call : Type :=
| CallRecord (name : str)
| CallAddPhone (self : addr) (phone : str)
| CallRemovePhone (self : addr) (phone : str)
| CallEditPhone (self : addr) (old_phone new_phone : str)
| CallFindPhone (self : addr) (phone : str)
| CallStr (self : addr)
| CallAddressBook
| CallAddRecord (self record : addr)
| CallFind (self : addr) (name : str)
| CallDelete (self : addr) (name : str).

Definition exec (c : call) : M unit :=
  match c with
  | CallRecord n => (Record.__init__ n ;;; ret tt)
  | CallAddPhone self phone => Record.add_phone self phone
  | CallRemovePhone self phone => Record.remove_phone self phone
  | CallEditPhone self old new => Record.edit_phone self old new
  | CallFindPhone self phone => (Record.find_phone self phone ;;; ret tt)
  | CallStr self => (Record.__str__ self ;;; ret tt)
  | CallAddressBook => (AddressBook.__init__ ;;; ret tt)
  | CallAddRecord self record => AddressBook.add_record self record
  | CallFind self n => (AddressBook.find self n ;;; ret tt)
  | CallDelete self n => AddressBook.delete self n
  end.

(** The store a call leaves, whether it returned or raised. *)
Definition state_after {A} (o : outcome A) : option State :=
  match o with
  | Return _ st => Some st
  | Raise _ st => Some st
  | Stuck => None
  end.

Inductive reachable : State -> Prop :=
| reachable_empty : reachable empty_state
| reachable_step (st st' : State) (c : call) :
    reachable st -> state_after (exec c st) = Some st' -> reachable st'.

(** The store after a sequence of calls, from left to right. *)
Fixpoint run (cs : list call) (st : State) : option State :=
  match cs with
  | [] => Some st
  | c :: rest =>
      match state_after (exec c st) with
      | Some st' => run rest st'
      | None => None
      end
  end.

(** A client session: a book, a record for John with one phone, a refused
    phone, the record put in the book. *)
Definition session : list call :=
  [ CallAddressBook;
    CallRecord (lit "John");
    CallAddPhone 1 (lit "1234567890");
    CallAddPhone 1 (lit "12345");
    CallAddRecord 0 1 ].

Definition session_state : State :=
  {| records :=
       {[ 1 := {| name := {| id := 2; value := lit "John" |};
                  phones := [ {| id := 3; value := lit "1234567890" |} ] |} ]};
     books := {[ 0 := {[ lit "John" := 1 ]} ]};
     next_id := 5 |}.

(** The test of [Phone.__init__], on a stored phone. *)
Definition valid_phone (p : FieldObj) : bool :=
  isdigit (value p) && (len (value p) =? 10).

(** What the methods keep true of a store: allocated addresses are below
    [next_id]; names are non-empty; every stored phone passes the test of
    [Phone.__init__]; every entry of a book leads to a stored record of
    that very name. *)
Record store_ok (st : State) : Prop := mkStoreOk {
  ok_alloc : forall a,
    is_Some (records st !! a) \/ is_Some (books st !! a) -> a < next_id st;
  ok_names : forall a r, records st !! a = Some r -> value (name r) <> [];
  ok_phones : forall a r,
    records st !! a = Some r -> Forall (fun p => valid_phone p = true) (phones r);
  ok_books : forall b d k a,
    books st !! b = Some d -> d !! k = Some a ->
    exists r, records st !! a = Some r /\ value (name r) = k
}.

(** What a method of the record at [self] may do to a store: rewrite its
    phone list, keeping valid phones valid, and allocate. *)
Definition phones_updated (st st' : State) (self : addr) (r : RecordObj)
  : Prop :=
  books st' = books st
  /\ next_id st <= next_id st'
  /\ exists l,
       records st' = <[self := {| name := name r; phones := l |}]> (records st)
       /\ (Forall (fun p => valid_phone p = true) (phones r) ->
           Forall (fun p => valid_phone p = true) l).

(** A string of ASCII characters only. *)
Definition ascii_only (s : str) : bool := forallb (fun c => (c <? 128)%N) s.

(** * Properties *)

(** ** Strings *)

Lemma truthy_nonempty (s : str) : truthy s = true <-> s <> [].
Proof. destruct s; cbn; split; congruence. Qed.

Lemma str_eq_true (a b : str) : str_eq a b = true <-> a = b.
Proof. unfold str_eq. apply bool_decide_eq_true. Qed.

Lemma str_eq_false (a b : str) : str_eq a b = false <-> a <> b.
Proof. unfold str_eq. apply bool_decide_eq_false. Qed.

Lemma isdigit_forall (s : str) :
  isdigit s = true <-> s <> [] /\ Forall (fun c => char_isdigit c = true) s.
Proof.
  destruct s as [|c s].
  - cbn. split; [discriminate | intros [H _]; congruence].
  - unfold isdigit. rewrite forallb_forall, Forall_forall.
    split.
    + intros H. split; [discriminate |]. intros x Hx. apply H.
      by apply list_elem_of_In.
    + intros [_ H] x Hx. apply H. by apply list_elem_of_In.
Qed.

Lemma decimal_digit_isdigit (c : char) :
  is_decimal_digit c = true -> char_isdigit c = true.
Proof.
  unfold is_decimal_digit, char_isdigit, digit_ranges. intros H.
  cbn [existsb fst snd]. by rewrite H.
Qed.

Lemma ten_decimal_digits_valid (s : str) :
  spec_ten_decimal_digits s = true -> isdigit s = true /\ len s = 10.
Proof.
  unfold spec_ten_decimal_digits. intros [Hl Hd]%andb_true_iff.
  apply Nat.eqb_eq in Hl. split; [| done].
  apply isdigit_forall. split.
  - intros ->. discriminate.
  - rewrite forallb_forall in Hd. apply Forall_forall. intros c Hc.
    apply decimal_digit_isdigit, Hd. by apply list_elem_of_In.
Qed.

(** ** Constructors of the value objects *)

Lemma Name_init_eq (s : str) (st : State) :
  Name.__init__ s st =
    if truthy s
    then Return {| id := next_id st; value := s |}
                (with_next_id (S (next_id st)) st)
    else Raise name_error (with_next_id (S (next_id st)) st).
Proof. unfold Name.__init__, bind, new. by destruct (truthy s). Qed.

Lemma Phone_init_eq (s : str) (st : State) :
  Phone.__init__ s st =
    if isdigit s && (len s =? 10)
    then Return {| id := next_id st; value := s |}
                (with_next_id (S (next_id st)) st)
    else Raise phone_error (with_next_id (S (next_id st)) st).
Proof.
  unfold Phone.__init__, bind, new.
  by destruct (isdigit s), (len s =? 10).
Qed.

(** What [Phone.__init__] accepts: the strings of 10 characters that are
    all digits in the sense of [str.isdigit]. *)
Lemma Phone_init_accepts (s : str) (st : State) :
  (exists p st', Phone.__init__ s st = Return p st' /\ Field.__str__ p = s)
  <-> len s = 10 /\ Forall (fun c => char_isdigit c = true) s.
Proof.
  rewrite Phone_init_eq. split.
  - intros (p & st' & H & _).
    destruct (isdigit s) eqn:Hd, (len s =? 10) eqn:Hl; try discriminate.
    apply Nat.eqb_eq in Hl. apply isdigit_forall in Hd. tauto.
  - intros [Hl Hd].
    assert (isdigit s = true) as ->.
    { apply isdigit_forall. split; [| done]. intros ->. discriminate. }
    apply Nat.eqb_eq in Hl. rewrite Hl. cbn. eauto.
Qed.

(** The strings the specification calls valid phones are accepted. *)
Lemma Phone_init_decimal (s : str) (st : State) :
  spec_ten_decimal_digits s = true ->
  exists p st', Phone.__init__ s st = Return p st' /\ Field.__str__ p = s.
Proof.
  intros [Hd Hl]%ten_decimal_digits_valid.
  apply isdigit_forall in Hd as [_ Hd].
  apply Phone_init_accepts. by split.
Qed.

(** C8: for every non-empty string [s], constructing a Name with [s]
    succeeds and the rendering of the result is [s]; constructing a Name
    with the empty string raises the name-validation error. *)
Theorem Name_init_spec (s : str) (st : State) :
  (s <> lit "" ->
   exists n st', Name.__init__ s st = Return n st' /\ Field.__str__ n = s)
  /\ (s = lit "" ->
      exists st', Name.__init__ s st = Raise name_error st').
Proof.
  rewrite Name_init_eq. split.
  - intros Hs. apply truthy_nonempty in Hs. rewrite Hs. eauto.
  - intros ->. cbn. eauto.
Qed.

Lemma Name_init_spec_witness :
  (exists n st', Name.__init__ (lit "John") empty_state = Return n st'
                 /\ Field.__str__ n = lit "John")
  /\ (exists st', Name.__init__ (lit "") empty_state = Raise name_error st').
Proof.
  split.
  - apply (Name_init_spec (lit "John") empty_state). discriminate.
  - apply (Name_init_spec (lit "") empty_state). reflexivity.
Defined.

(** C1: [Phone.__init__] accepts a string that does not consist of 10
    decimal-digit characters: ten superscript twos pass [isdigit] and the
    length test, so the construction succeeds and renders the string. *)
Theorem Phone_init_superscript_twos (st : State) :
  spec_ten_decimal_digits superscript_twos = false
  /\ exists p st', Phone.__init__ superscript_twos st = Return p st'
                   /\ Field.__str__ p = superscript_twos.
Proof.
  split; [reflexivity |]. rewrite Phone_init_eq. cbn. eauto.
Qed.

Lemma Phone_init_rejects (s : str) (st : State) :
  len s <> 10 \/ Exists (fun c => char_isdigit c = false) s ->
  Phone.__init__ s st = Raise phone_error (with_next_id (S (next_id st)) st).
Proof.
  intros H. rewrite Phone_init_eq.
  destruct (isdigit s) eqn:Hd; [| done].
  destruct (len s =? 10) eqn:Hl; [| done].
  apply Nat.eqb_eq in Hl. apply isdigit_forall in Hd as [_ Hd].
  destruct H as [H | H]; [done |].
  apply Exists_exists in H as (c & Hc & Hf).
  rewrite Forall_forall in Hd. specialize (Hd c Hc). congruence.
Qed.

Lemma Phone_init_records (s : str) (st st' : State) (p : FieldObj) :
  Phone.__init__ s st = Return p st' ->
  value p = s /\ st' = with_next_id (S (next_id st)) st.
Proof.
  rewrite Phone_init_eq. destruct (isdigit s && (len s =? 10)); [| done].
  intros [= <- <-]. done.
Qed.

(** ** Reading and writing the attributes of a record *)

Section RecordAccess.
Variables (st : State) (self : addr) (r : RecordObj).
Hypothesis Hself : records st !! self = Some r.

Lemma get_record_eq : get_record self st = Return r st.
Proof using Hself. unfold get_record. by rewrite Hself. Qed.

Lemma get_phones_eq : get_phones self st = Return (phones r) st.
Proof using Hself. unfold get_phones, bind. by rewrite get_record_eq. Qed.

Lemma set_phones_eq (l : list FieldObj) :
  set_phones self l st =
    Return tt (with_records
                 (<[self := {| name := name r; phones := l |}]> (records st))
                 st).
Proof using Hself. unfold set_phones, bind. by rewrite get_record_eq. Qed.

Lemma get_phones_fresh (n : addr) :
  get_phones self (with_next_id n st) = Return (phones r) (with_next_id n st).
Proof using Hself. unfold get_phones, bind, get_record. cbn. by rewrite Hself. Qed.

Lemma set_phones_fresh (n : addr) (l : list FieldObj) :
  set_phones self l (with_next_id n st) =
    Return tt (with_records
                 (<[self := {| name := name r; phones := l |}]> (records st))
                 (with_next_id n st)).
Proof using Hself. unfold set_phones, bind, get_record. cbn. by rewrite Hself. Qed.
End RecordAccess.

Lemma get_phones_no_raise (self : addr) (st st' : State) (e : exception) :
  get_phones self st <> Raise e st'.
Proof. unfold get_phones, bind, get_record. by destruct (records st !! self). Qed.

Lemma set_phones_no_raise (self : addr) (l : list FieldObj) (st st' : State)
    (e : exception) :
  set_phones self l st <> Raise e st'.
Proof. unfold set_phones, bind, get_record. by destruct (records st !! self). Qed.

(** ** The loops of [Record] *)

Lemma obj_eq_refl (p : FieldObj) : obj_eq p p = true.
Proof.
  unfold obj_eq. rewrite Nat.eqb_refl. cbn. by apply str_eq_true.
Qed.

Lemma obj_eq_value (x y : FieldObj) : value x <> value y -> obj_eq x y = false.
Proof.
  intros H. unfold obj_eq. apply str_eq_false in H. rewrite H.
  apply andb_false_r.
Qed.

Lemma list_remove_first (l1 l2 : list FieldObj) (p : FieldObj) :
  Forall (fun x => value x <> value p) l1 ->
  list_remove p (l1 ++ p :: l2) = Some (l1 ++ l2).
Proof.
  induction 1 as [| x l1 Hx _ IH]; cbn.
  - by rewrite obj_eq_refl.
  - by rewrite (obj_eq_value x p Hx), IH.
Qed.

Lemma remove_phone_loop_skip (self : addr) (phone : str)
    (l1 rest : list FieldObj) :
  Forall (fun x => value x <> phone) l1 ->
  Record.remove_phone_loop self phone (l1 ++ rest) =
  Record.remove_phone_loop self phone rest.
Proof.
  induction 1 as [| x l1 Hx _ IH]; [done |].
  cbn. apply str_eq_false in Hx. by rewrite Hx.
Qed.

Lemma edit_phone_loop_skip (self : addr) (old new : str)
    (l1 rest : list FieldObj) (idx : nat) :
  Forall (fun x => value x <> old) l1 ->
  Record.edit_phone_loop self old new idx (l1 ++ rest) =
  Record.edit_phone_loop self old new (idx + length l1) rest.
Proof.
  intros H. revert idx.
  induction H as [| x l1 Hx _ IH]; intros idx; cbn.
  - by rewrite Nat.add_0_r.
  - apply str_eq_false in Hx. rewrite Hx, IH. f_equal. lia.
Qed.

Lemma find_phone_loop_skip (phone : str) (l1 rest : list FieldObj) :
  Forall (fun x => value x <> phone) l1 ->
  Record.find_phone_loop phone (l1 ++ rest) = Record.find_phone_loop phone rest.
Proof.
  induction 1 as [| x l1 Hx _ IH]; [done |].
  cbn. apply str_eq_false in Hx. by rewrite Hx.
Qed.

Lemma edit_phone_loop_raise (self : addr) (old new : str) (it : list FieldObj)
    (idx : nat) (st st' : State) (e : exception) :
  Record.edit_phone_loop self old new idx it st = Raise e st' ->
  e = phone_error /\ records st' = records st /\ books st' = books st.
Proof.
  revert idx. induction it as [| p it IH]; intros idx; cbn; [done |].
  destruct (str_eq (value p) old); [| by apply IH].
  unfold bind. rewrite Phone_init_eq.
  destruct (isdigit new && (len new =? 10)).
  - destruct (get_phones self _) as [l st1 | e1 st1 |] eqn:Hg; [| | done].
    + intros H. by apply set_phones_no_raise in H.
    + by apply get_phones_no_raise in Hg.
  - by intros [= <- <-].
Qed.

(** ** Operations on the phones of a record *)

(** [add_phone] appends the Phone constructed from its argument, whether
    or not the number is already stored. *)
Lemma add_phone_appends (st st1 : State) (self : addr) (r : RecordObj)
    (s : str) (q : FieldObj) :
  records st !! self = Some r ->
  Phone.__init__ s st = Return q st1 ->
  Record.add_phone self s st =
    Return tt
      (with_records
         (<[self := {| name := name r; phones := phones r ++ [q] |}]>
            (records st))
         st1).
Proof.
  intros Hself Hq. pose proof (Phone_init_records _ _ _ _ Hq) as [_ ->].
  unfold Record.add_phone, bind.
  rewrite (get_phones_eq _ _ _ Hself), Hq.
  by rewrite (set_phones_fresh _ _ _ Hself).
Qed.

(** C2: [edit_phone(old, new)] replaces the first phone whose value is
    [old] by the Phone constructed from [new], at the same position and
    with every other entry kept; when no phone has the value [old] the
    call returns normally with the store untouched, whatever [new] is. *)
Theorem edit_phone_spec (st : State) (self : addr) (r : RecordObj)
    (old new : str) :
  records st !! self = Some r ->
  (forall l1 p l2 q st1,
      phones r = l1 ++ p :: l2 ->
      Forall (fun x => value x <> old) l1 ->
      value p = old ->
      Phone.__init__ new st = Return q st1 ->
      value q = new
      /\ Record.edit_phone self old new st =
           Return tt
             (with_records
                (<[self := {| name := name r; phones := l1 ++ q :: l2 |}]>
                   (records st))
                st1))
  /\ (Forall (fun x => value x <> old) (phones r) ->
      Record.edit_phone self old new st = Return tt st).
Proof.
  intros Hself. split.
  - intros l1 p l2 q st1 Hl Hl1 Hp Hq.
    pose proof (Phone_init_records _ _ _ _ Hq) as [Hv ->].
    split; [done |].
    unfold Record.edit_phone, bind at 1.
    rewrite (get_phones_eq _ _ _ Hself), Hl.
    rewrite (edit_phone_loop_skip _ _ _ _ _ _ Hl1). cbn.
    apply str_eq_true in Hp. rewrite Hp.
    unfold bind. rewrite Hq.
    rewrite (get_phones_fresh _ _ _ Hself), (set_phones_fresh _ _ _ Hself).
    rewrite Hl. do 3 f_equal.
    rewrite insert_app_r_alt by lia.
    by rewrite Nat.sub_diag.
  - intros Hnone.
    unfold Record.edit_phone, bind.
    rewrite (get_phones_eq _ _ _ Hself).
    rewrite <- (app_nil_r (phones r)).
    by rewrite (edit_phone_loop_skip _ _ _ _ _ _ Hnone).
Qed.

Lemma edit_phone_spec_witness :
  Record.edit_phone 1 (lit "5555555555") (lit "1112223333") john_state =
    Return tt
      (with_records
         {[ 1 := {| name := name john_obj;
                    phones := [ {| id := 3; value := lit "1234567890" |};
                                {| id := 6; value := lit "1112223333" |};
                                {| id := 5; value := lit "5555555555" |} ] |} ]}
         (with_next_id 7 john_state))
  /\ Record.edit_phone 1 (lit "0000000000") (lit "not a phone") john_state =
       Return tt john_state.
Proof.
  split.
  - pose proof (edit_phone_spec john_state 1 john_obj (lit "5555555555")
                  (lit "1112223333") eq_refl) as [H _].
    specialize (H [ {| id := 3; value := lit "1234567890" |} ]
                  {| id := 4; value := lit "5555555555" |}
                  [ {| id := 5; value := lit "5555555555" |} ]
                  {| id := 6; value := lit "1112223333" |}
                  (with_next_id 7 john_state) eq_refl).
    destruct H as [_ H]; [| reflexivity | reflexivity |].
    + repeat constructor. discriminate.
    + rewrite H. reflexivity.
  - apply (edit_phone_spec john_state 1 john_obj (lit "0000000000")
             (lit "not a phone") eq_refl).
    repeat constructor; discriminate.
Defined.

(** C4: [remove_phone(raw)] deletes exactly the first phone whose value
    is [raw]; the entries before and after it, later duplicates of [raw]
    included, stay in order. When no phone has the value [raw] the call
    returns normally and the store is untouched. *)
Theorem remove_phone_spec (st : State) (self : addr) (r : RecordObj)
    (raw : str) :
  records st !! self = Some r ->
  (forall l1 p l2,
      phones r = l1 ++ p :: l2 ->
      Forall (fun x => value x <> raw) l1 ->
      value p = raw ->
      Record.remove_phone self raw st =
        Return tt
          (with_records
             (<[self := {| name := name r; phones := l1 ++ l2 |}]> (records st))
             st))
  /\ (Forall (fun x => value x <> raw) (phones r) ->
      Record.remove_phone self raw st = Return tt st).
Proof.
  intros Hself. split.
  - intros l1 p l2 Hl Hl1 Hp.
    unfold Record.remove_phone, bind.
    rewrite (get_phones_eq _ _ _ Hself), Hl.
    rewrite (remove_phone_loop_skip _ _ _ _ Hl1). cbn.
    pose proof Hp as Hp'. apply str_eq_true in Hp'. rewrite Hp'.
    unfold bind. rewrite (get_phones_eq _ _ _ Hself), Hl.
    rewrite list_remove_first by (by rewrite Hp).
    by rewrite (set_phones_eq _ _ _ Hself).
  - intros Hnone.
    unfold Record.remove_phone, bind.
    rewrite (get_phones_eq _ _ _ Hself).
    rewrite <- (app_nil_r (phones r)).
    by rewrite (remove_phone_loop_skip _ _ _ _ Hnone).
Qed.

Lemma remove_phone_spec_witness :
  Record.remove_phone 1 (lit "5555555555") john_state =
    Return tt
      (with_records
         {[ 1 := {| name := name john_obj;
                    phones := [ {| id := 3; value := lit "1234567890" |};
                                {| id := 5; value := lit "5555555555" |} ] |} ]}
         john_state)
  /\ Record.remove_phone 1 (lit "0000000000") john_state = Return tt john_state.
Proof.
  split.
  - pose proof (remove_phone_spec john_state 1 john_obj (lit "5555555555")
                  eq_refl) as [H _].
    specialize (H [ {| id := 3; value := lit "1234567890" |} ]
                  {| id := 4; value := lit "5555555555" |}
                  [ {| id := 5; value := lit "5555555555" |} ] eq_refl).
    rewrite H; [reflexivity | | reflexivity].
    repeat constructor. discriminate.
  - apply (remove_phone_spec john_state 1 john_obj (lit "0000000000") eq_refl).
    repeat constructor; discriminate.
Defined.

Lemma find_phone_loop_found (raw : str) (l : list FieldObj) :
  Exists (fun p => value p = raw) l -> Record.find_phone_loop raw l = raw.
Proof.
  induction l as [| x l IH]; intros H; [by apply Exists_nil in H |].
  cbn. destruct (str_eq (value x) raw) eqn:Hx.
  - by apply str_eq_true in Hx.
  - apply str_eq_false in Hx. apply Exists_cons in H as [H | H]; [done |].
    by apply IH.
Qed.

(** C5: [find_phone(raw)] returns [raw] when some stored phone has that
    value and the empty string when none has; in both cases it returns
    normally and leaves the store as it was. *)
Theorem find_phone_spec (st : State) (self : addr) (r : RecordObj) (raw : str) :
  records st !! self = Some r ->
  (Exists (fun p => value p = raw) (phones r) ->
   Record.find_phone self raw st = Return raw st)
  /\ (Forall (fun p => value p <> raw) (phones r) ->
      Record.find_phone self raw st = Return (lit "") st)
  /\ exists v, Record.find_phone self raw st = Return v st.
Proof.
  intros Hself. unfold Record.find_phone, bind.
  rewrite (get_phones_eq _ _ _ Hself). unfold ret.
  split; [| split].
  - intros H. by rewrite find_phone_loop_found.
  - intros H. rewrite <- (app_nil_r (phones r)).
    by rewrite find_phone_loop_skip.
  - eauto.
Qed.

Lemma find_phone_spec_witness :
  Record.find_phone 1 (lit "5555555555") john_state =
    Return (lit "5555555555") john_state
  /\ Record.find_phone 1 (lit "1112223333") john_state =
       Return (lit "") john_state.
Proof.
  split.
  - apply (find_phone_spec john_state 1 john_obj (lit "5555555555") eq_refl).
    apply Exists_cons_tl, Exists_cons_hd. reflexivity.
  - apply (find_phone_spec john_state 1 john_obj (lit "1112223333") eq_refl).
    repeat constructor; discriminate.
Defined.

Lemma join_spec_joined (sep : str) (parts : list str) :
  join sep parts = spec_joined sep parts.
Proof.
  induction parts as [| p rest IH]; [done |].
  destruct rest as [| q rest].
  - cbn. by rewrite app_nil_r.
  - change (join sep (p :: q :: rest)) with (p ++ sep ++ join sep (q :: rest)).
    rewrite IH. cbn. by rewrite <- !app_assoc.
Qed.

(** C9: the rendering of a record is "Contact name: ", the name, then
    ", phones: ", then the values of the stored phones in order, separated
    by "; "; with no phone it stops right after "phones: ". Rendering
    leaves the store as it was. *)
Theorem Record_str_spec (st : State) (self : addr) (r : RecordObj) :
  records st !! self = Some r ->
  Record.__str__ self st =
    Return (lit "Contact name: " ++ value (name r) ++ lit ", phones: "
            ++ spec_joined (lit "; ") (map value (phones r))) st
  /\ (phones r = [] ->
      Record.__str__ self st =
        Return (lit "Contact name: " ++ value (name r) ++ lit ", phones: ") st).
Proof.
  intros Hself. unfold Record.__str__, bind.
  rewrite (get_record_eq _ _ _ Hself). unfold ret.
  split.
  - by rewrite join_spec_joined.
  - intros ->. cbn [map join]. by rewrite !app_nil_r.
Qed.

Lemma Record_str_spec_witness :
  Record.__str__ 1 john_state =
    Return (lit "Contact name: John, phones: 1234567890; 5555555555; 5555555555")
           john_state.
Proof.
  destruct (Record_str_spec john_state 1 john_obj eq_refl) as [H _].
  rewrite H. reflexivity.
Defined.

(** The script: after the edit John's record renders with the new number
    first, the second number is found, and Jane is gone. *)
Example main_result :
  exists st',
    main empty_state =
      Return (lit "Contact name: John, phones: 1112223333; 5555555555",
              lit "5555555555", None) st'.
Proof. eexists. vm_compute. reflexivity. Qed.

Lemma add_phone_raise (self : addr) (s : str) (st st' : State) (e : exception) :
  Record.add_phone self s st = Raise e st' ->
  e = phone_error /\ records st' = records st /\ books st' = books st.
Proof.
  unfold Record.add_phone, bind, get_phones at 1, bind, get_record.
  destruct (records st !! self) as [r |]; [| done]. unfold ret.
  rewrite Phone_init_eq. destruct (isdigit s && (len s =? 10)).
  - intros H. by apply set_phones_no_raise in H.
  - by intros [= <- <-].
Qed.

Lemma edit_phone_raise (self : addr) (old new : str) (st st' : State)
    (e : exception) :
  Record.edit_phone self old new st = Raise e st' ->
  e = phone_error /\ records st' = records st /\ books st' = books st.
Proof.
  unfold Record.edit_phone, bind, get_phones at 1, bind, get_record.
  destruct (records st !! self) as [r |]; [| done]. unfold ret.
  apply edit_phone_loop_raise.
Qed.

Lemma edit_phone_loop_rejects (self : addr) (old new : str)
    (it : list FieldObj) (idx : nat) (st : State) :
  Exists (fun p => value p = old) it ->
  len new <> 10 \/ Exists (fun c => char_isdigit c = false) new ->
  Record.edit_phone_loop self old new idx it st =
    Raise phone_error (with_next_id (S (next_id st)) st).
Proof.
  intros Hold Hnew. revert idx.
  induction Hold as [p it Hp | p it _ IH]; intros idx; cbn.
  - apply str_eq_true in Hp. rewrite Hp. unfold bind.
    by rewrite (Phone_init_rejects _ _ Hnew).
  - destruct (str_eq (value p) old); [| apply IH].
    unfold bind. by rewrite (Phone_init_rejects _ _ Hnew).
Qed.

(** C10: a call of [add_phone] or [edit_phone] that raises leaves every
    record, the receiver included, exactly as it was, and what it raises
    is the phone-validation error; such a call does raise when the string
    to store has a length other than 10 or holds a character that is not a
    digit (for [edit_phone], provided some phone has the old value). *)
Theorem phone_update_atomic (st : State) (self : addr) :
  (forall s e st',
      Record.add_phone self s st = Raise e st' ->
      e = phone_error /\ records st' = records st /\ books st' = books st)
  /\ (forall old new e st',
         Record.edit_phone self old new st = Raise e st' ->
         e = phone_error /\ records st' = records st /\ books st' = books st)
  /\ (forall r s,
         records st !! self = Some r ->
         len s <> 10 \/ Exists (fun c => char_isdigit c = false) s ->
         exists st', Record.add_phone self s st = Raise phone_error st')
  /\ (forall r old new,
         records st !! self = Some r ->
         Exists (fun p => value p = old) (phones r) ->
         len new <> 10 \/ Exists (fun c => char_isdigit c = false) new ->
         exists st', Record.edit_phone self old new st = Raise phone_error st').
Proof.
  split; [| split; [| split]].
  - intros s e st'. apply add_phone_raise.
  - intros old new e st'. apply edit_phone_raise.
  - intros r s Hself Hs. unfold Record.add_phone, bind.
    rewrite (get_phones_eq _ _ _ Hself), (Phone_init_rejects _ _ Hs). eauto.
  - intros r old new Hself Hold Hnew.
    unfold Record.edit_phone, bind. rewrite (get_phones_eq _ _ _ Hself).
    rewrite (edit_phone_loop_rejects _ _ _ _ _ _ Hold Hnew). eauto.
Qed.

Lemma phone_update_atomic_witness :
  (exists st', Record.add_phone 1 (lit "12345") john_state = Raise phone_error st'
               /\ records st' = records john_state)
  /\ (exists st', Record.edit_phone 1 (lit "5555555555") (lit "555-555-55")
                    john_state = Raise phone_error st'
                  /\ records st' = records john_state).
Proof.
  destruct (phone_update_atomic john_state 1) as (Hadd & Hedit & Radd & Redit).
  split.
  - destruct (Radd john_obj (lit "12345") eq_refl) as [st' H].
    { left. vm_compute. lia. }
    exists st'. split; [exact H |]. by apply (Hadd _ _ _ H).
  - destruct (Redit john_obj (lit "5555555555") (lit "555-555-55") eq_refl)
      as [st' H].
    { apply Exists_cons_tl, Exists_cons_hd. reflexivity. }
    { right. do 3 apply Exists_cons_tl. apply Exists_cons_hd. reflexivity. }
    exists st'. split; [exact H |]. by apply (Hedit _ _ _ _ H).
Defined.

(** ** Validation errors *)

Lemma Record_init_raise (n : str) (st st' : State) (e : exception) :
  Name.__init__ n (with_next_id (S (next_id st)) st) = Raise e st' ->
  Record.__init__ n st = Raise e st'.
Proof. intros H. unfold Record.__init__, bind at 1, new. unfold bind. by rewrite H. Qed.

(** C3, as the code has it: an empty name and a phone whose length is not
    10 or that holds a character that is not a digit are both refused with
    the built-in [ValueError], the two cases differing by the message
    only. The exception is raised by the constructor itself and comes out
    unchanged of [Record(...)], [add_phone] and [edit_phone], none of
    which handles it. *)
Theorem validation_errors_spec (st : State) :
  (exists st', Name.__init__ (lit "") st = Raise name_error st')
  /\ (forall s,
         len s <> 10 \/ Exists (fun c => char_isdigit c = false) s ->
         exists st', Phone.__init__ s st = Raise phone_error st')
  /\ exc_class name_error = "ValueError"%string
  /\ exc_class phone_error = "ValueError"%string
  /\ exc_msg name_error <> exc_msg phone_error
  /\ (forall n e st',
         Name.__init__ n (with_next_id (S (next_id st)) st) = Raise e st' ->
         Record.__init__ n st = Raise e st')
  /\ (forall self r s e st',
         records st !! self = Some r ->
         Phone.__init__ s st = Raise e st' ->
         Record.add_phone self s st = Raise e st')
  /\ (forall self r old new e st',
         records st !! self = Some r ->
         Exists (fun p => value p = old) (phones r) ->
         Phone.__init__ new st = Raise e st' ->
         Record.edit_phone self old new st = Raise e st').
Proof.
  split; [| split; [| split; [| split; [| split; [| split; [| split]]]]]].
  - rewrite Name_init_eq. cbn. eauto.
  - intros s Hs. rewrite (Phone_init_rejects _ _ Hs). eauto.
  - reflexivity.
  - reflexivity.
  - discriminate.
  - intros n e st'. apply Record_init_raise.
  - intros self r s e st' Hself He. unfold Record.add_phone, bind.
    by rewrite (get_phones_eq _ _ _ Hself), He.
  - intros self r old new e st' Hself Hold He.
    unfold Record.edit_phone, bind. rewrite (get_phones_eq _ _ _ Hself).
    generalize 0. induction Hold as [p it Hp | p it _ IH]; intros idx; cbn.
    + apply str_eq_true in Hp. rewrite Hp. unfold bind. by rewrite He.
    + destruct (str_eq (value p) old); [| apply IH].
      unfold bind. by rewrite He.
Qed.

Lemma validation_errors_spec_witness :
  (exists st', Phone.__init__ (lit "12345") john_state = Raise phone_error st')
  /\ (exists st', Record.__init__ (lit "") john_state = Raise name_error st')
  /\ (exists st', Record.add_phone 1 (lit "12345678x0") john_state =
                    Raise phone_error st').
Proof.
  destruct (validation_errors_spec john_state)
    as (_ & Hphone & _ & _ & _ & Hrec & Hadd & _).
  split; [| split].
  - apply Hphone. left. vm_compute. lia.
  - eexists. apply Hrec. reflexivity.
  - eexists. apply (Hadd 1 john_obj); reflexivity.
Defined.

(** C3, as stated, fails: the exception raised for an empty name is not
    of a class [InvalidNameError], the one raised for a short phone is not
    of a class [InvalidPhoneError], and the two are of the same class. *)
Lemma validation_errors_counterexample :
  ~ (exists e st', Name.__init__ (lit "") empty_state = Raise e st'
                   /\ exc_class e = "InvalidNameError"%string)
  /\ ~ (exists e st', Phone.__init__ (lit "12345") empty_state = Raise e st'
                      /\ exc_class e = "InvalidPhoneError"%string)
  /\ ~ (exists en ep st1 st2,
          Name.__init__ (lit "") empty_state = Raise en st1
          /\ Phone.__init__ (lit "12345") empty_state = Raise ep st2
          /\ exc_class en <> exc_class ep).
Proof.
  split; [| split].
  - intros (e & st' & H & Hc). injection H as <- _. discriminate.
  - intros (e & st' & H & Hc). injection H as <- _. discriminate.
  - intros (en & ep & st1 & st2 & Hn & Hp & Hne).
    injection Hn as <- _. injection Hp as <- _. by apply Hne.
Qed.

(** ** The address book *)

Lemma get_data_eq (st : State) (book : addr) (d : gmap str addr) :
  books st !! book = Some d -> get_data book st = Return d st.
Proof. intros H. unfold get_data. by rewrite H. Qed.

Lemma add_record_eq (st : State) (book record : addr) (d : gmap str addr)
    (o : RecordObj) :
  books st !! book = Some d ->
  records st !! record = Some o ->
  AddressBook.add_record book record st =
    Return tt
      (with_books (<[book := <[value (name o) := record]> d]> (books st)) st).
Proof.
  intros Hb Hr. unfold AddressBook.add_record, bind.
  by rewrite (get_data_eq _ _ _ Hb), (get_record_eq _ _ _ Hr).
Qed.

Lemma find_eq (st : State) (book : addr) (d : gmap str addr) (n : str) :
  books st !! book = Some d ->
  AddressBook.find book n st = Return (d !! n) st.
Proof.
  intros Hb. unfold AddressBook.find, bind. by rewrite (get_data_eq _ _ _ Hb).
Qed.

Lemma filter_key_absent (n : str) (l : list (str * addr)) :
  n ∉ l.*1 -> filter (fun kv => kv.1 = n) l = [].
Proof.
  induction l as [| [k v] l IH]; [done |].
  rewrite fmap_cons, not_elem_of_cons. intros [Hk Hl].
  rewrite filter_cons_False by (intros Heq; apply Hk; symmetry; exact Heq).
  by apply IH.
Qed.

Lemma filter_key_unique (n : str) (r : addr) (l : list (str * addr)) :
  NoDup l.*1 -> (n, r) ∈ l -> filter (fun kv => kv.1 = n) l = [(n, r)].
Proof.
  induction l as [| [k v] l IH]; intros Hnd Hin.
  - by apply elem_of_nil in Hin.
  - rewrite fmap_cons in Hnd. apply NoDup_cons in Hnd as [Hk Hnd].
    apply elem_of_cons in Hin as [Heq | Hin].
    + injection Heq as <- <-.
      rewrite filter_cons_True by done.
      by rewrite filter_key_absent.
    + assert (k <> n) as Hne.
      { intros ->. apply Hk. apply list_elem_of_fmap. by exists (n, r). }
      rewrite filter_cons_False by done. by apply IH.
Qed.

Lemma entries_under_lookup (n : str) (r : addr) (d : gmap str addr) :
  d !! n = Some r -> entries_under n d = [(n, r)].
Proof.
  intros H. unfold entries_under. apply filter_key_unique.
  - apply NoDup_fst_map_to_list.
  - by apply elem_of_map_to_list.
Qed.

(** C6: [add_record(r)] stores [r] under the name of [r] and touches no
    other key, no other book and no record; adding two records of the same
    name one after the other leaves a single entry under that name, which
    holds the second record, the other keys being as they were. *)
Theorem add_record_spec (st : State) (book : addr) (d : gmap str addr)
    (r1 r2 : addr) (o1 o2 : RecordObj) :
  books st !! book = Some d ->
  records st !! r1 = Some o1 ->
  records st !! r2 = Some o2 ->
  (exists st1 d1,
      AddressBook.add_record book r1 st = Return tt st1
      /\ books st1 !! book = Some d1
      /\ records st1 = records st
      /\ (forall b, b <> book -> books st1 !! b = books st !! b)
      /\ entries_under (value (name o1)) d1 = [(value (name o1), r1)]
      /\ AddressBook.find book (value (name o1)) st1 = Return (Some r1) st1
      /\ (forall k, k <> value (name o1) -> d1 !! k = d !! k))
  /\ (value (name o1) = value (name o2) ->
      exists st2 d2,
        (AddressBook.add_record book r1 ;;; AddressBook.add_record book r2) st
          = Return tt st2
        /\ books st2 !! book = Some d2
        /\ records st2 = records st
        /\ entries_under (value (name o2)) d2 = [(value (name o2), r2)]
        /\ AddressBook.find book (value (name o2)) st2 = Return (Some r2) st2
        /\ (forall k, k <> value (name o2) -> d2 !! k = d !! k)).
Proof.
  intros Hb H1 H2. split.
  - eexists _, _. rewrite (add_record_eq _ _ _ _ _ Hb H1).
    split; [reflexivity |]. cbn.
    split; [apply lookup_insert_eq |]. split; [reflexivity |].
    split; [| split; [| split]].
    + intros b Hne. by apply lookup_insert_ne.
    + apply entries_under_lookup, lookup_insert_eq.
    + erewrite find_eq by apply lookup_insert_eq.
      by rewrite lookup_insert_eq.
    + intros k Hne. by apply lookup_insert_ne.
  - intros Hname. eexists _, _.
    unfold bind at 1. rewrite (add_record_eq _ _ _ _ _ Hb H1).
    erewrite add_record_eq; [| apply lookup_insert_eq | exact H2].
    split; [reflexivity |]. cbn.
    split; [apply lookup_insert_eq |]. split; [reflexivity |].
    split; [| split].
    + apply entries_under_lookup, lookup_insert_eq.
    + erewrite find_eq by apply lookup_insert_eq.
      by rewrite lookup_insert_eq.
    + intros k Hne. rewrite lookup_insert_ne by done.
      apply lookup_insert_ne. congruence.
Qed.

Lemma add_record_spec_witness :
  exists st2 d2,
    (AddressBook.add_record 0 1 ;;; AddressBook.add_record 0 6) two_johns_state
      = Return tt st2
    /\ books st2 !! 0 = Some d2
    /\ entries_under (lit "John") d2 = [(lit "John", 6)]
    /\ AddressBook.find 0 (lit "John") st2 = Return (Some 6) st2.
Proof.
  destruct (add_record_spec two_johns_state 0 ∅ 1 6 john_obj other_john
              eq_refl eq_refl eq_refl) as [_ H].
  destruct (H eq_refl) as (st2 & d2 & Hrun & Hd2 & _ & Hone & Hfind & _).
  exists st2, d2. repeat split; assumption.
Defined.

Lemma delete_eq (st : State) (book : addr) (d : gmap str addr) (n : str) :
  books st !! book = Some d ->
  AddressBook.delete book n st =
    match d !! n with
    | Some _ => Return tt (with_books (<[book := delete n d]> (books st)) st)
    | None => Return tt st
    end.
Proof.
  intros Hb. unfold AddressBook.delete, bind.
  rewrite (get_data_eq _ _ _ Hb).
  destruct (d !! n) as [r |] eqn:Hn.
  - by rewrite bool_decide_eq_true_2.
  - rewrite bool_decide_eq_false_2; [done |]. by intros [? ?].
Qed.

(** C7: [delete(n)] removes the entry under [n] when there is one and
    returns normally with the store untouched when there is none; after
    it [find(n)] gives [None], and the other keys are as before. [find]
    gives [None] for a name without entry and, for a stored name, the
    address the dictionary holds: the record that was stored, not a new
    one (looking up a record right after adding it gives back its own
    address, and nothing was allocated). *)
Theorem delete_find_spec (st : State) (book : addr) (d : gmap str addr)
    (n : str) :
  books st !! book = Some d ->
  (d !! n = None -> AddressBook.delete book n st = Return tt st)
  /\ (exists st' d',
         AddressBook.delete book n st = Return tt st'
         /\ books st' !! book = Some d'
         /\ records st' = records st
         /\ d' !! n = None
         /\ (forall k, k <> n -> d' !! k = d !! k)
         /\ AddressBook.find book n st' = Return None st')
  /\ (d !! n = None -> AddressBook.find book n st = Return None st)
  /\ (forall r, d !! n = Some r ->
                AddressBook.find book n st = Return (Some r) st)
  /\ (forall r o,
         records st !! r = Some o ->
         exists st',
           (AddressBook.add_record book r ;;;
            AddressBook.find book (value (name o))) st = Return (Some r) st'
           /\ records st' = records st
           /\ next_id st' = next_id st).
Proof.
  intros Hb. split; [| split; [| split; [| split]]].
  - intros Hn. by rewrite (delete_eq _ _ _ _ Hb), Hn.
  - rewrite (delete_eq _ _ _ _ Hb).
    destruct (d !! n) as [r |] eqn:Hn.
    + eexists _, (delete n d). split; [reflexivity |]. cbn.
      split; [apply lookup_insert_eq |]. split; [reflexivity |].
      split; [apply lookup_delete_eq |].
      split; [intros k Hk; by apply lookup_delete_ne |].
      erewrite find_eq by apply lookup_insert_eq.
      by rewrite lookup_delete_eq.
    + exists st, d. repeat split; try done.
      by rewrite (find_eq _ _ _ _ Hb), Hn.
  - intros Hn. by rewrite (find_eq _ _ _ _ Hb), Hn.
  - intros r Hn. by rewrite (find_eq _ _ _ _ Hb), Hn.
  - intros r o Hr. eexists. unfold bind.
    rewrite (add_record_eq _ _ _ _ _ Hb Hr).
    erewrite find_eq by apply lookup_insert_eq.
    rewrite lookup_insert_eq. done.
Qed.

Lemma delete_find_spec_witness :
  AddressBook.find 0 (lit "John") john_state = Return (Some 1) john_state
  /\ AddressBook.delete 0 (lit "Jane") john_state = Return tt john_state
  /\ exists st',
       AddressBook.delete 0 (lit "John") john_state = Return tt st'
       /\ AddressBook.find 0 (lit "John") st' = Return None st'.
Proof.
  destruct (delete_find_spec john_state 0 {[ lit "John" := 1 ]} (lit "John")
              eq_refl) as (_ & Hdel & _ & Hfind & _).
  destruct (delete_find_spec john_state 0 {[ lit "John" := 1 ]} (lit "Jane")
              eq_refl) as (Hnone & _).
  split; [| split].
  - apply Hfind. reflexivity.
  - apply Hnone. reflexivity.
  - destruct Hdel as (st' & d' & Hrun & _ & _ & _ & _ & Hgone).
    exists st'. split; assumption.
Defined.

(** The record found in a book is the record that was added, not a copy:
    a phone added through the address [find] returns lands in the record
    stored at that address. *)
Lemma found_record_is_shared (st st1 : State) (book r : addr)
    (d : gmap str addr) (n s : str) (o : RecordObj) (q : FieldObj) :
  books st !! book = Some d ->
  d !! n = Some r ->
  records st !! r = Some o ->
  Phone.__init__ s st = Return q st1 ->
  (found <- AddressBook.find book n ;;
   match found with
   | Some x => Record.add_phone x s
   | None => ret tt
   end) st =
    Return tt
      (with_records
         (<[r := {| name := name o; phones := phones o ++ [q] |}]> (records st))
         st1).
Proof.
  intros Hb Hn Hr Hq. unfold bind at 1.
  rewrite (find_eq _ _ _ _ Hb), Hn.
  by apply add_phone_appends.
Qed.

(** * Further properties of the classes *)

(** ** Validation on ASCII input *)

Lemma ascii_digit_agree (c : char) :
  (c <? 128)%N = true -> char_isdigit c = is_decimal_digit c.
Proof.
  intros Hc. apply N.ltb_lt in Hc.
  assert (forallb (fun n => Bool.eqb (char_isdigit (N.of_nat n))
                              (is_decimal_digit (N.of_nat n)))
            (seq 0 128) = true) as Hall by (vm_compute; reflexivity).
  rewrite forallb_forall in Hall.
  specialize (Hall (N.to_nat c)). rewrite N2Nat.id in Hall.
  apply Bool.eqb_prop, Hall, in_seq. lia.
Qed.

Lemma ascii_isdigit_forallb (s : str) :
  ascii_only s = true -> forallb char_isdigit s = forallb is_decimal_digit s.
Proof.
  induction s as [| c s IH]; [done |].
  unfold ascii_only. cbn [forallb].
  intros [Hc Hs]%andb_true_iff.
  by rewrite (ascii_digit_agree c Hc), (IH Hs).
Qed.

(** On a string of ASCII characters, [Phone.__init__] succeeds exactly
    when the string is ten characters long and each one is among
    [0]..[9]; signs, spaces, letters and separators are all refused, and
    nothing is trimmed or reformatted. *)
Theorem Phone_init_ascii (s : str) (st : State) :
  ascii_only s = true ->
  (spec_ten_decimal_digits s = true ->
   Phone.__init__ s st =
     Return {| id := next_id st; value := s |}
            (with_next_id (S (next_id st)) st))
  /\ (spec_ten_decimal_digits s = false ->
      Phone.__init__ s st =
        Raise phone_error (with_next_id (S (next_id st)) st)).
Proof.
  intros Ha. rewrite Phone_init_eq.
  assert (isdigit s && (len s =? 10) = spec_ten_decimal_digits s) as ->.
  { unfold spec_ten_decimal_digits.
    rewrite <- (ascii_isdigit_forallb s Ha).
    destruct s as [| c s]; [reflexivity |].
    unfold isdigit. apply andb_comm. }
  split; intros ->; reflexivity.
Qed.

Lemma Phone_init_ascii_witness :
  Phone.__init__ (lit "0501234567") empty_state =
    Return {| id := 0; value := lit "0501234567" |}
           (with_next_id 1 empty_state)
  /\ Phone.__init__ (lit "+380501234") empty_state =
       Raise phone_error (with_next_id 1 empty_state)
  /\ Phone.__init__ (lit " 501234567") empty_state =
       Raise phone_error (with_next_id 1 empty_state).
Proof.
  split; [| split].
  - apply (Phone_init_ascii (lit "0501234567") empty_state); reflexivity.
  - apply (Phone_init_ascii (lit "+380501234") empty_state); reflexivity.
  - apply (Phone_init_ascii (lit " 501234567") empty_state); reflexivity.
Defined.

(** ** Constructing a record *)

Lemma Record_init_eq (n : str) (st : State) :
  Record.__init__ n st =
    if truthy n
    then Return (next_id st)
           (with_records
              (<[next_id st :=
                   {| name := {| id := S (next_id st); value := n |};
                      phones := [] |}]> (records st))
              (with_next_id (S (S (next_id st))) st))
    else Raise name_error (with_next_id (S (S (next_id st))) st).
Proof.
  unfold Record.__init__, bind at 1, new. unfold bind at 1.
  rewrite Name_init_eq. by destruct (truthy n).
Qed.

(** [Record(n)] with a non-empty [n] yields a record named [n] with no
    phone: it renders as "Contact name: n, phones: " and no phone is found
    in it; when the address it is given was free, every record already
    stored is left as it was. With the empty name the name error is
    raised and no record is stored. *)
Theorem Record_init_spec (n : str) (st : State) :
  (n <> lit "" ->
   exists self st',
     Record.__init__ n st = Return self st'
     /\ records st' !! self =
          Some {| name := {| id := S (next_id st); value := n |};
                  phones := [] |}
     /\ books st' = books st
     /\ Record.__str__ self st' =
          Return (lit "Contact name: " ++ n ++ lit ", phones: ") st'
     /\ (forall raw, Record.find_phone self raw st' = Return (lit "") st')
     /\ (records st !! next_id st = None ->
         forall a r, records st !! a = Some r -> records st' !! a = Some r))
  /\ (n = lit "" ->
      exists st', Record.__init__ n st = Raise name_error st'
                  /\ records st' = records st /\ books st' = books st).
Proof.
  rewrite Record_init_eq. split.
  - intros Hn. apply truthy_nonempty in Hn. rewrite Hn.
    eexists _, _. split; [reflexivity |].
    set (r := {| name := _; phones := [] |}).
    set (st' := with_records _ _).
    assert (records st' !! next_id st = Some r) as Hr
      by apply lookup_insert_eq.
    split; [exact Hr |]. split; [reflexivity |].
    split; [| split].
    + unfold Record.__str__, bind. by rewrite (get_record_eq _ _ _ Hr).
    + intros raw. unfold Record.find_phone, bind.
      by rewrite (get_phones_eq _ _ _ Hr).
    + intros Hfree a o Ha. subst st'. cbn.
      rewrite lookup_insert_ne; [done |]. intros <-. congruence.
  - intros ->. cbn. eauto.
Qed.

Lemma Record_init_spec_witness :
  (exists self st',
      Record.__init__ (lit "Jane") john_state = Return self st'
      /\ Record.__str__ self st' =
           Return (lit "Contact name: Jane, phones: ") st'
      /\ records st' !! 1 = Some john_obj)
  /\ (exists st', Record.__init__ (lit "") john_state = Raise name_error st'
                  /\ records st' = records john_state).
Proof.
  destruct (Record_init_spec (lit "Jane") john_state) as [Hok _].
  destruct (Record_init_spec (lit "") john_state) as [_ Hbad].
  split.
  - destruct Hok as (self & st' & Hrun & _ & _ & Hstr & _ & Hold);
      [discriminate |].
    exists self, st'. split; [exact Hrun |]. split; [exact Hstr |].
    apply Hold; reflexivity.
  - destruct Hbad as (st' & Hrun & Hrec & _); [reflexivity |].
    exists st'. by split.
Defined.

(** ** Outcomes of the methods of a record, case by case *)

Lemma first_match (raw : str) (l : list FieldObj) :
  Forall (fun x => value x <> raw) l
  \/ exists l1 p l2,
       l = l1 ++ p :: l2 /\ Forall (fun x => value x <> raw) l1 /\ value p = raw.
Proof.
  induction l as [| x l IH]; [by left |].
  destruct (decide (value x = raw)) as [Hx | Hx].
  - right. by exists [], x, l.
  - destruct IH as [IH | (l1 & p & l2 & -> & Hl1 & Hp)].
    + left. by constructor.
    + right. exists (x :: l1), p, l2. repeat split; [| done]. by constructor.
Qed.

Section RecordOutcomes.
Variables (st : State) (self : addr) (r : RecordObj).
Hypothesis Hself : records st !! self = Some r.

Lemma add_phone_eq (s : str) :
  Record.add_phone self s st =
    if isdigit s && (len s =? 10)
    then Return tt
           (with_records
              (<[self := {| name := name r;
                            phones := phones r
                                      ++ [{| id := next_id st; value := s |}] |}]>
                 (records st))
              (with_next_id (S (next_id st)) st))
    else Raise phone_error (with_next_id (S (next_id st)) st).
Proof using Hself.
  unfold Record.add_phone, bind.
  rewrite (get_phones_eq _ _ _ Hself), Phone_init_eq.
  destruct (isdigit s && (len s =? 10)); [| done].
  by rewrite (set_phones_fresh _ _ _ Hself).
Qed.

Lemma remove_phone_absent (raw : str) :
  Forall (fun x => value x <> raw) (phones r) ->
  Record.remove_phone self raw st = Return tt st.
Proof using Hself.
  intros Hnone. unfold Record.remove_phone, bind.
  rewrite (get_phones_eq _ _ _ Hself), <- (app_nil_r (phones r)).
  by rewrite (remove_phone_loop_skip _ _ _ _ Hnone).
Qed.

Lemma remove_phone_at (raw : str) (l1 l2 : list FieldObj) (p : FieldObj) :
  phones r = l1 ++ p :: l2 ->
  Forall (fun x => value x <> raw) l1 ->
  value p = raw ->
  Record.remove_phone self raw st =
    Return tt
      (with_records
         (<[self := {| name := name r; phones := l1 ++ l2 |}]> (records st)) st).
Proof using Hself.
  intros Hl Hl1 Hp. unfold Record.remove_phone, bind.
  rewrite (get_phones_eq _ _ _ Hself), Hl.
  rewrite (remove_phone_loop_skip _ _ _ _ Hl1). cbn.
  pose proof Hp as Hp'. apply str_eq_true in Hp'. rewrite Hp'.
  unfold bind. rewrite (get_phones_eq _ _ _ Hself), Hl.
  rewrite list_remove_first by (by rewrite Hp).
  by rewrite (set_phones_eq _ _ _ Hself).
Qed.

Lemma edit_phone_absent (old new : str) :
  Forall (fun x => value x <> old) (phones r) ->
  Record.edit_phone self old new st = Return tt st.
Proof using Hself.
  intros Hnone. unfold Record.edit_phone, bind.
  rewrite (get_phones_eq _ _ _ Hself), <- (app_nil_r (phones r)).
  by rewrite (edit_phone_loop_skip _ _ _ _ _ _ Hnone).
Qed.

Lemma edit_phone_at (old new : str) (l1 l2 : list FieldObj) (p : FieldObj) :
  phones r = l1 ++ p :: l2 ->
  Forall (fun x => value x <> old) l1 ->
  value p = old ->
  Record.edit_phone self old new st =
    if isdigit new && (len new =? 10)
    then Return tt
           (with_records
              (<[self := {| name := name r;
                            phones := l1 ++ {| id := next_id st; value := new |}
                                         :: l2 |}]> (records st))
              (with_next_id (S (next_id st)) st))
    else Raise phone_error (with_next_id (S (next_id st)) st).
Proof using Hself.
  intros Hl Hl1 Hp. unfold Record.edit_phone, bind at 1.
  rewrite (get_phones_eq _ _ _ Hself), Hl.
  rewrite (edit_phone_loop_skip _ _ _ _ _ _ Hl1). cbn.
  apply str_eq_true in Hp. rewrite Hp. unfold bind.
  rewrite Phone_init_eq. destruct (isdigit new && (len new =? 10)); [| done].
  rewrite (get_phones_fresh _ _ _ Hself), (set_phones_fresh _ _ _ Hself), Hl.
  do 3 f_equal. rewrite insert_app_r_alt by lia. by rewrite Nat.sub_diag.
Qed.

Lemma find_phone_eq (raw : str) :
  Record.find_phone self raw st =
    Return (Record.find_phone_loop raw (phones r)) st.
Proof using Hself.
  unfold Record.find_phone, bind. by rewrite (get_phones_eq _ _ _ Hself).
Qed.
End RecordOutcomes.

Lemma find_phone_loop_absent (raw : str) (l : list FieldObj) :
  Forall (fun x => value x <> raw) l -> Record.find_phone_loop raw l = lit "".
Proof.
  intros H. rewrite <- (app_nil_r l). by rewrite find_phone_loop_skip.
Qed.

Lemma find_phone_loop_snoc_ne (raw : str) (l : list FieldObj) (q : FieldObj) :
  value q <> raw ->
  Record.find_phone_loop raw (l ++ [q]) = Record.find_phone_loop raw l.
Proof.
  intros Hq. induction l as [| x l IH]; cbn.
  - apply str_eq_false in Hq. by rewrite Hq.
  - by rewrite IH.
Qed.

(** ** Adding, finding, removing and editing together *)

(** [add_phone(s)] with a string that passes the test returns normally
    and puts a phone of value [s] after the phones already there, even
    when [s] is stored already; [find_phone(s)] then finds it, and any
    other number is found or not as before. *)
Theorem add_phone_then_find (st : State) (self : addr) (r : RecordObj)
    (s : str) :
  records st !! self = Some r ->
  isdigit s = true ->
  len s = 10 ->
  exists q st',
    Record.add_phone self s st = Return tt st'
    /\ value q = s
    /\ records st' !! self =
         Some {| name := name r; phones := phones r ++ [q] |}
    /\ Record.find_phone self s st' = Return s st'
    /\ (forall raw, raw <> s ->
        exists v, Record.find_phone self raw st = Return v st
                  /\ Record.find_phone self raw st' = Return v st').
Proof.
  intros Hself Hd Hl.
  exists {| id := next_id st; value := s |}. eexists.
  rewrite (add_phone_eq _ _ _ Hself), Hd.
  apply Nat.eqb_eq in Hl. rewrite Hl. cbn [andb].
  split; [reflexivity |]. split; [reflexivity |].
  set (st' := with_records _ _).
  assert (records st' !! self =
            Some {| name := name r;
                    phones := phones r ++ [{| id := next_id st; value := s |}] |})
    as Hr by apply lookup_insert_eq.
  split; [exact Hr |]. split.
  - rewrite (find_phone_eq _ _ _ Hr). f_equal.
    apply find_phone_loop_found. cbn.
    apply Exists_app. right. by constructor.
  - intros raw Hraw. exists (Record.find_phone_loop raw (phones r)).
    rewrite (find_phone_eq _ _ _ Hself), (find_phone_eq _ _ _ Hr).
    split; [done |]. f_equal.
    apply find_phone_loop_snoc_ne. cbn. congruence.
Qed.

Lemma add_phone_then_find_witness :
  exists q st',
    Record.add_phone 1 (lit "5555555555") john_state = Return tt st'
    /\ records st' !! 1 =
         Some {| name := name john_obj; phones := phones john_obj ++ [q] |}
    /\ Record.find_phone 1 (lit "5555555555") st' =
         Return (lit "5555555555") st'.
Proof.
  destruct (add_phone_then_find john_state 1 john_obj (lit "5555555555")
              eq_refl eq_refl eq_refl)
    as (q & st' & Hrun & _ & Hrec & Hfind & _).
  exists q, st'. by repeat split.
Defined.

(** Adding a number and then removing it: when the number was not stored
    the record is back to what it was; when it was stored already, the
    entry that goes is the older one, at its first position, and the new
    phone stays at the end. *)
Theorem add_then_remove_phone (st : State) (self : addr) (r : RecordObj)
    (s : str) :
  records st !! self = Some r ->
  isdigit s = true ->
  len s = 10 ->
  (Forall (fun x => value x <> s) (phones r) ->
   exists st',
     (Record.add_phone self s ;;; Record.remove_phone self s) st = Return tt st'
     /\ records st' = records st /\ books st' = books st)
  /\ (forall l1 p l2,
         phones r = l1 ++ p :: l2 ->
         Forall (fun x => value x <> s) l1 ->
         value p = s ->
         exists st',
           (Record.add_phone self s ;;; Record.remove_phone self s) st
             = Return tt st'
           /\ records st' !! self =
                Some {| name := name r;
                        phones := l1 ++ l2
                                  ++ [{| id := next_id st; value := s |}] |}).
Proof.
  intros Hself Hd Hl. apply Nat.eqb_eq in Hl.
  set (q := {| id := next_id st; value := s |}).
  set (st1 := with_records
                (<[self := {| name := name r; phones := phones r ++ [q] |}]>
                   (records st))
                (with_next_id (S (next_id st)) st)).
  assert (Record.add_phone self s st = Return tt st1) as Hadd.
  { rewrite (add_phone_eq _ _ _ Hself), Hd, Hl. reflexivity. }
  assert (records st1 !! self =
            Some {| name := name r; phones := phones r ++ [q] |}) as Hr1
    by apply lookup_insert_eq.
  split.
  - intros Hnone. eexists. unfold bind. rewrite Hadd.
    rewrite (remove_phone_at st1 self _ Hr1 s (phones r) [] q);
      [| done | done | done].
    split; [reflexivity |]. split; [| reflexivity].
    cbn. rewrite insert_insert_eq, app_nil_r.
    destruct r. by apply insert_id.
  - intros l1 p l2 Hp Hl1 Hv. eexists. unfold bind. rewrite Hadd.
    rewrite (remove_phone_at st1 self _ Hr1 s l1 (l2 ++ [q]) p);
      [| by cbn; rewrite Hp, <- app_assoc | done | done].
    split; [reflexivity |]. cbn. by rewrite lookup_insert_eq.
Qed.

Lemma add_then_remove_phone_witness :
  (exists st',
      (Record.add_phone 1 (lit "0000000000") ;;;
       Record.remove_phone 1 (lit "0000000000")) john_state = Return tt st'
      /\ records st' = records john_state)
  /\ (exists st',
         (Record.add_phone 1 (lit "1234567890") ;;;
          Record.remove_phone 1 (lit "1234567890")) john_state = Return tt st'
         /\ records st' !! 1 =
              Some {| name := name john_obj;
                      phones := [ {| id := 4; value := lit "5555555555" |};
                                  {| id := 5; value := lit "5555555555" |};
                                  {| id := 6; value := lit "1234567890" |} ] |}).
Proof.
  split.
  - destruct (add_then_remove_phone john_state 1 john_obj (lit "0000000000")
                eq_refl eq_refl eq_refl) as [H _].
    destruct H as (st' & Hrun & Hrec & _).
    { repeat constructor; discriminate. }
    by exists st'.
  - destruct (add_then_remove_phone john_state 1 john_obj (lit "1234567890")
                eq_refl eq_refl eq_refl) as [_ H].
    destruct (H [] {| id := 3; value := lit "1234567890" |}
                [ {| id := 4; value := lit "5555555555" |};
                  {| id := 5; value := lit "5555555555" |} ]
                eq_refl (List.Forall_nil _) eq_refl) as (st' & Hrun & Hrec).
    by exists st'.
Defined.

(** [remove_phone] always returns normally on a record: the [ValueError]
    of [list.remove] cannot occur, since the item handed to it was just
    read from the list. The name is kept, the phones left are phones that
    were there, in the same order, at most one is gone, and nothing else
    in the store moves. *)
Theorem remove_phone_returns (st : State) (self : addr) (r : RecordObj)
    (raw : str) :
  records st !! self = Some r ->
  exists st' r',
    Record.remove_phone self raw st = Return tt st'
    /\ records st' !! self = Some r'
    /\ name r' = name r
    /\ phones r' `sublist_of` phones r
    /\ length (phones r) <= S (length (phones r'))
    /\ (forall a, a <> self -> records st' !! a = records st !! a)
    /\ books st' = books st
    /\ next_id st' = next_id st.
Proof.
  intros Hself.
  destruct (first_match raw (phones r)) as [Hnone | (l1 & p & l2 & Hl & Hl1 & Hp)].
  - exists st, r. rewrite (remove_phone_absent _ _ _ Hself _ Hnone).
    repeat split; try done. lia.
  - eexists _, _. rewrite (remove_phone_at _ _ _ Hself _ _ _ _ Hl Hl1 Hp).
    split; [reflexivity |]. cbn.
    split; [apply lookup_insert_eq |]. cbn.
    split; [reflexivity |]. rewrite Hl.
    split; [| split; [| split; [| done]]].
    + apply sublist_app; [done |]. by apply sublist_cons.
    + rewrite !length_app. cbn. lia.
    + intros a Ha. by apply lookup_insert_ne.
Qed.

Lemma remove_phone_returns_witness :
  exists st' r',
    Record.remove_phone 1 (lit "5555555555") john_state = Return tt st'
    /\ records st' !! 1 = Some r'
    /\ phones r' `sublist_of` phones john_obj.
Proof.
  destruct (remove_phone_returns john_state 1 john_obj (lit "5555555555")
              eq_refl) as (st' & r' & Hrun & Hrec & _ & Hsub & _).
  by exists st', r'.
Defined.

(** On a record whose phones all pass the test of [Phone.__init__], the
    empty string returned by [find_phone] means "not stored" and nothing
    else: it is returned exactly when no phone has the value asked for. *)
Theorem find_phone_empty_iff_absent (st : State) (self : addr) (r : RecordObj)
    (raw : str) :
  records st !! self = Some r ->
  Forall (fun p => valid_phone p = true) (phones r) ->
  Record.find_phone self raw st = Return (lit "") st
  <-> Forall (fun p => value p <> raw) (phones r).
Proof.
  intros Hself Hvalid. rewrite (find_phone_eq _ _ _ Hself). split.
  - intros Hret.
    destruct (first_match raw (phones r))
      as [Hnone | (l1 & p & l2 & Hl & Hl1 & Hp)]; [done |].
    exfalso. rewrite Hl in Hret, Hvalid.
    rewrite find_phone_loop_found in Hret
      by (apply Exists_app; right; by constructor).
    apply Forall_app in Hvalid as [_ Hvalid].
    apply Forall_cons in Hvalid as [Hv _].
    unfold valid_phone in Hv. apply andb_true_iff in Hv as [_ Hlen].
    apply Nat.eqb_eq in Hlen. rewrite Hp in Hlen.
    injection Hret as ->. discriminate.
  - intros Hnone. by rewrite find_phone_loop_absent.
Qed.

Lemma find_phone_empty_iff_absent_witness :
  Record.find_phone 1 (lit "") john_state = Return (lit "") john_state
  /\ Forall (fun p => value p <> lit "0000000000") (phones john_obj).
Proof.
  assert (Forall (fun p => valid_phone p = true) (phones john_obj)) as Hv
    by (repeat constructor).
  split.
  - apply (find_phone_empty_iff_absent john_state 1 john_obj (lit "") eq_refl Hv).
    repeat constructor; discriminate.
  - apply (find_phone_empty_iff_absent john_state 1 john_obj (lit "0000000000")
             eq_refl Hv).
    reflexivity.
Defined.

(** After [edit_phone(old, new)] has replaced the first phone of value
    [old] by a valid [new], [find_phone(new)] finds it; [find_phone(old)]
    finds nothing when [old] was stored once, and still finds [old] when
    a later copy of it remains. *)
Theorem edit_phone_then_find (st : State) (self : addr) (r : RecordObj)
    (old new : str) (l1 l2 : list FieldObj) (p : FieldObj) :
  records st !! self = Some r ->
  phones r = l1 ++ p :: l2 ->
  Forall (fun x => value x <> old) l1 ->
  value p = old ->
  isdigit new = true ->
  len new = 10 ->
  exists st',
    Record.edit_phone self old new st = Return tt st'
    /\ Record.find_phone self new st' = Return new st'
    /\ (old <> new -> Forall (fun x => value x <> old) l2 ->
        Record.find_phone self old st' = Return (lit "") st')
    /\ (Exists (fun x => value x = old) l2 ->
        Record.find_phone self old st' = Return old st').
Proof.
  intros Hself Hl Hl1 Hp Hd Hlen. apply Nat.eqb_eq in Hlen.
  eexists. rewrite (edit_phone_at _ _ _ Hself _ _ _ _ _ Hl Hl1 Hp), Hd, Hlen.
  cbn [andb]. split; [reflexivity |].
  set (q := {| id := next_id st; value := new |}).
  set (st' := with_records _ _).
  assert (records st' !! self =
            Some {| name := name r; phones := l1 ++ q :: l2 |}) as Hr
    by apply lookup_insert_eq.
  rewrite !(find_phone_eq _ _ _ Hr). cbn [phones].
  split; [| split].
  - f_equal. apply find_phone_loop_found.
    apply Exists_app. right. by constructor.
  - intros Hne Hl2. f_equal. apply find_phone_loop_absent.
    apply Forall_app. split; [done |]. constructor; [| done].
    cbn. congruence.
  - intros Hl2. f_equal. apply find_phone_loop_found.
    apply Exists_app. right. by apply Exists_cons_tl.
Qed.

Lemma edit_phone_then_find_witness :
  exists st',
    Record.edit_phone 1 (lit "5555555555") (lit "1112223333") john_state
      = Return tt st'
    /\ Record.find_phone 1 (lit "1112223333") st' =
         Return (lit "1112223333") st'
    /\ Record.find_phone 1 (lit "5555555555") st' =
         Return (lit "5555555555") st'.
Proof.
  destruct (edit_phone_then_find john_state 1 john_obj (lit "5555555555")
              (lit "1112223333")
              [ {| id := 3; value := lit "1234567890" |} ]
              [ {| id := 5; value := lit "5555555555" |} ]
              {| id := 4; value := lit "5555555555" |} eq_refl eq_refl)
    as (st' & Hrun & Hnew & _ & Hold); try reflexivity.
  { repeat constructor. discriminate. }
  exists st'. split; [exact Hrun |]. split; [exact Hnew |].
  apply Hold. by constructor.
Defined.

(** ** What the methods of a record change *)

Lemma records_insert_same (st : State) (self : addr) (r : RecordObj) :
  records st !! self = Some r ->
  records st = <[self := {| name := name r; phones := phones r |}]> (records st).
Proof. intros H. destruct r. symmetry. by apply insert_id. Qed.

Section RecordUpdates.
Variables (st st' : State) (self : addr) (r : RecordObj).
Hypothesis Hself : records st !! self = Some r.

Lemma add_phone_update (s : str) :
  state_after (Record.add_phone self s st) = Some st' -> phones_updated st st' self r.
Proof using Hself.
  rewrite (add_phone_eq _ _ _ Hself).
  destruct (isdigit s && (len s =? 10)) eqn:Hv; cbn; intros [= <-];
    (split; [done |]); (split; [cbn; lia |]).
  - eexists. split; [reflexivity |]. intros H.
    apply Forall_app. split; [done |]. by repeat constructor.
  - exists (phones r). split; [| done]. cbn. by apply records_insert_same.
Qed.

Lemma remove_phone_update (raw : str) :
  state_after (Record.remove_phone self raw st) = Some st' -> phones_updated st st' self r.
Proof using Hself.
  destruct (first_match raw (phones r))
    as [Hnone | (l1 & p & l2 & Hl & Hl1 & Hp)].
  - rewrite (remove_phone_absent _ _ _ Hself _ Hnone). cbn. intros [= <-].
    split; [done |]. split; [done |].
    exists (phones r). split; [| done]. by apply records_insert_same.
  - rewrite (remove_phone_at _ _ _ Hself _ _ _ _ Hl Hl1 Hp). cbn.
    intros [= <-]. split; [done |]. split; [done |].
    eexists. split; [reflexivity |]. rewrite Hl.
    intros [H1 [_ H2]%Forall_cons]%Forall_app.
    apply Forall_app. by split.
Qed.

Lemma edit_phone_update (old new : str) :
  state_after (Record.edit_phone self old new st) = Some st' -> phones_updated st st' self r.
Proof using Hself.
  destruct (first_match old (phones r))
    as [Hnone | (l1 & p & l2 & Hl & Hl1 & Hp)].
  - rewrite (edit_phone_absent _ _ _ Hself _ new Hnone). cbn. intros [= <-].
    split; [done |]. split; [done |].
    exists (phones r). split; [| done]. by apply records_insert_same.
  - rewrite (edit_phone_at _ _ _ Hself _ new _ _ _ Hl Hl1 Hp).
    destruct (isdigit new && (len new =? 10)) eqn:Hv; cbn; intros [= <-];
      (split; [done |]); (split; [cbn; lia |]).
    + eexists. split; [reflexivity |]. rewrite Hl.
      intros [H1 [_ H2]%Forall_cons]%Forall_app.
      apply Forall_app. split; [done |]. by constructor.
    + exists (phones r). split; [| done]. cbn. by apply records_insert_same.
Qed.
End RecordUpdates.

(** Whatever [add_phone], [remove_phone] or [edit_phone] does on a
    record, returning or raising: the books, every other record and the
    receiver's name are as before. The methods of a record write its
    phone list and nothing else. *)
Theorem record_methods_frame (st st' : State) (self : addr) (r : RecordObj)
    (m : M unit) :
  records st !! self = Some r ->
  (exists s, m = Record.add_phone self s)
  \/ (exists s, m = Record.remove_phone self s)
  \/ (exists old new, m = Record.edit_phone self old new) ->
  state_after (m st) = Some st' ->
  books st' = books st
  /\ (forall a, a <> self -> records st' !! a = records st !! a)
  /\ exists r', records st' !! self = Some r' /\ name r' = name r.
Proof.
  intros Hself Hm Hrun.
  assert (phones_updated st st' self r) as (Hb & _ & l & Hrec & _).
  { destruct Hm as [[s ->] | [[s ->] | (old & new & ->)]].
    - by apply (add_phone_update _ _ _ _ Hself s).
    - by apply (remove_phone_update _ _ _ _ Hself s).
    - by apply (edit_phone_update _ _ _ _ Hself old new). }
  split; [done |]. rewrite Hrec. split.
  - intros a Ha. by apply lookup_insert_ne.
  - eexists. split; [apply lookup_insert_eq | done].
Qed.

Lemma record_methods_frame_witness :
  state_after (Record.edit_phone 1 (lit "1234567890") (lit "oops") john_state)
    = Some (with_next_id 7 john_state)
  /\ books (with_next_id 7 john_state) = books john_state
  /\ exists r', records (with_next_id 7 john_state) !! 1 = Some r'
                /\ name r' = name john_obj.
Proof.
  split; [reflexivity |].
  destruct (record_methods_frame john_state (with_next_id 7 john_state) 1
              john_obj (Record.edit_phone 1 (lit "1234567890") (lit "oops"))
              eq_refl)
    as (Hb & _ & Hr); [| reflexivity | by split].
  right. right. by exists (lit "1234567890"), (lit "oops").
Defined.

(** ** What every method keeps true of the store *)

Lemma store_ok_empty : store_ok empty_state.
Proof.
  split; unfold empty_state; cbn [records books next_id].
  - intros a [[? H] | [? H]]; by rewrite lookup_empty in H.
  - intros a r H. by rewrite lookup_empty in H.
  - intros a r H. by rewrite lookup_empty in H.
  - intros b d k a H. by rewrite lookup_empty in H.
Qed.

Lemma store_ok_same (st st' : State) :
  store_ok st ->
  records st' = records st -> books st' = books st ->
  next_id st <= next_id st' ->
  store_ok st'.
Proof.
  intros [Ha Hn Hp Hb] Hr Hbk Hlt. split; rewrite ?Hr, ?Hbk.
  - intros a H. specialize (Ha a H). lia.
  - done.
  - done.
  - done.
Qed.

Lemma store_ok_phones (st st' : State) (self : addr) (r : RecordObj) :
  store_ok st ->
  records st !! self = Some r ->
  phones_updated st st' self r ->
  store_ok st'.
Proof.
  intros [Ha Hn Hp Hb] Hself (Hbk & Hlt & l & Hr & Hl).
  specialize (Hl (Hp _ _ Hself)).
  split; rewrite ?Hr, ?Hbk.
  - intros a [H | H].
    + destruct (decide (a = self)) as [-> | Hne].
      * assert (self < next_id st) by (apply Ha; left; by eexists). lia.
      * rewrite lookup_insert_ne in H by done.
        assert (a < next_id st) by (apply Ha; by left). lia.
    + assert (a < next_id st) by (apply Ha; by right). lia.
  - intros a o. destruct (decide (a = self)) as [-> | Hne].
    + rewrite lookup_insert_eq. intros [= <-]. cbn. by apply (Hn self).
    + rewrite lookup_insert_ne by done. apply Hn.
  - intros a o. destruct (decide (a = self)) as [-> | Hne].
    + rewrite lookup_insert_eq. by intros [= <-].
    + rewrite lookup_insert_ne by done. apply Hp.
  - intros b d k a Hd Hk.
    destruct (Hb b d k a Hd Hk) as (o & Ho & Hname).
    destruct (decide (a = self)) as [-> | Hne].
    + rewrite lookup_insert_eq. eexists. split; [done |]. cbn. congruence.
    + rewrite lookup_insert_ne by done. eauto.
Qed.

Lemma store_ok_new_record (st st' : State) (n : str) (i : addr) :
  store_ok st ->
  n <> [] ->
  records st' =
    <[next_id st := {| name := {| id := i; value := n |}; phones := [] |}]>
      (records st) ->
  books st' = books st ->
  next_id st < next_id st' ->
  store_ok st'.
Proof.
  intros [Ha Hn Hp Hb] Hne Hr Hbk Hlt.
  split; rewrite ?Hr, ?Hbk.
  - intros a [H | H].
    + destruct (decide (a = next_id st)) as [-> | Hd]; [done |].
      rewrite lookup_insert_ne in H by done.
      assert (a < next_id st) by (apply Ha; by left). lia.
    + assert (a < next_id st) by (apply Ha; by right). lia.
  - intros a o. destruct (decide (a = next_id st)) as [-> | Hd].
    + rewrite lookup_insert_eq. by intros [= <-].
    + rewrite lookup_insert_ne by done. apply Hn.
  - intros a o. destruct (decide (a = next_id st)) as [-> | Hd].
    + rewrite lookup_insert_eq. intros [= <-]. constructor.
    + rewrite lookup_insert_ne by done. apply Hp.
  - intros b d k a Hd Hk.
    destruct (Hb b d k a Hd Hk) as (o & Ho & Hname).
    assert (a < next_id st) by (apply Ha; left; by eexists).
    rewrite lookup_insert_ne by lia. eauto.
Qed.

Lemma store_ok_data (st st' : State) (b : addr) (d : gmap str addr) :
  store_ok st ->
  (forall k a, d !! k = Some a ->
               exists r, records st !! a = Some r /\ value (name r) = k) ->
  records st' = records st ->
  books st' = <[b := d]> (books st) ->
  next_id st <= next_id st' ->
  b < next_id st' ->
  store_ok st'.
Proof.
  intros [Ha Hn Hp Hb] Hd Hr Hbk Hlt Hblt.
  split; rewrite ?Hr, ?Hbk.
  - intros a [H | H].
    + assert (a < next_id st) by (apply Ha; by left). lia.
    + destruct (decide (a = b)) as [-> | Hne]; [done |].
      rewrite lookup_insert_ne in H by done.
      assert (a < next_id st) by (apply Ha; by right). lia.
  - done.
  - done.
  - intros b' d' k a. destruct (decide (b' = b)) as [-> | Hne].
    + rewrite lookup_insert_eq. intros [= <-]. apply Hd.
    + rewrite lookup_insert_ne by done. apply Hb.
Qed.

(** Every constructor and method call, returning or raising, keeps the
    store in order. *)
Lemma exec_store_ok (c : call) (st st' : State) :
  store_ok st ->
  state_after (exec c st) = Some st' ->
  store_ok st'.
Proof.
  intros Hok. destruct c as [n | self s | self s | self old new | self s | self
                            | | book record | book n | book n]; cbn [exec].
  - unfold bind. rewrite Record_init_eq.
    destruct (truthy n) eqn:Hn; cbn; intros [= <-].
    + apply truthy_nonempty in Hn.
      eapply store_ok_new_record; [done | done | reflexivity | done | cbn; lia].
    + eapply store_ok_same; [done | done | done | cbn; lia].
  - destruct (records st !! self) as [r |] eqn:Hself.
    + intros H. eapply store_ok_phones; [done | done |].
      by apply (add_phone_update _ _ _ _ Hself s).
    + unfold Record.add_phone, bind, get_phones, bind, get_record.
      by rewrite Hself.
  - destruct (records st !! self) as [r |] eqn:Hself.
    + intros H. eapply store_ok_phones; [done | done |].
      by apply (remove_phone_update _ _ _ _ Hself s).
    + unfold Record.remove_phone, bind, get_phones, bind, get_record.
      by rewrite Hself.
  - destruct (records st !! self) as [r |] eqn:Hself.
    + intros H. eapply store_ok_phones; [done | done |].
      by apply (edit_phone_update _ _ _ _ Hself old new).
    + unfold Record.edit_phone, bind, get_phones, bind, get_record.
      by rewrite Hself.
  - unfold bind, Record.find_phone, bind, get_phones, bind, get_record.
    destruct (records st !! self); cbn; [| done]. by intros [= <-].
  - unfold bind, Record.__str__, bind, get_record.
    destruct (records st !! self); cbn; [| done]. by intros [= <-].
  - cbn. intros [= <-].
    eapply (store_ok_data st _ (next_id st) ∅);
      [done | | reflexivity | reflexivity | cbn; lia | cbn; lia].
    intros k a H. by rewrite lookup_empty in H.
  - destruct (books st !! book) as [d |] eqn:Hb;
      [| unfold AddressBook.add_record, bind, get_data; by rewrite Hb].
    destruct (records st !! record) as [r |] eqn:Hr;
      [| unfold AddressBook.add_record, bind, get_data, get_record;
         by rewrite Hb, Hr].
    rewrite (add_record_eq _ _ _ _ _ Hb Hr). cbn. intros [= <-].
    eapply (store_ok_data st _ book);
      [done | | reflexivity | reflexivity | done |].
    + intros k a. destruct (decide (k = value (name r))) as [-> | Hne].
      * rewrite lookup_insert_eq. intros [= <-]. eauto.
      * rewrite lookup_insert_ne by done. by apply (ok_books st Hok book).
    + cbn. apply (ok_alloc st Hok). right. by eexists.
  - unfold bind, AddressBook.find, bind, get_data.
    destruct (books st !! book); cbn; [| done]. by intros [= <-].
  - destruct (books st !! book) as [d |] eqn:Hb;
      [| unfold AddressBook.delete, bind, get_data; by rewrite Hb].
    rewrite (delete_eq _ _ _ _ Hb).
    destruct (d !! n) as [x |] eqn:Hn; cbn; intros [= <-]; [| done].
    eapply (store_ok_data st _ book);
      [done | | reflexivity | reflexivity | done |].
    + intros k a [_ H]%lookup_delete_Some. by apply (ok_books st Hok book d).
    + cbn. apply (ok_alloc st Hok). right. by eexists.
Qed.

Lemma run_reachable (cs : list call) (st st' : State) :
  reachable st -> run cs st = Some st' -> reachable st'.
Proof.
  revert st. induction cs as [| c cs IH]; intros st Hst; cbn.
  - by intros [= <-].
  - destruct (state_after (exec c st)) as [st1 |] eqn:Hc; [| done].
    apply IH. by apply (reachable_step st st1 c).
Qed.

Lemma reachable_store_ok (st : State) : reachable st -> store_ok st.
Proof.
  induction 1 as [| st st' c _ IH Hstep].
  - apply store_ok_empty.
  - by apply (exec_store_ok c st st').
Qed.

Lemma session_reachable : reachable session_state.
Proof.
  apply (run_reachable session empty_state); [constructor | reflexivity].
Qed.

(** In every store a client can reach, a stored record has a non-empty
    name and each of its phones passed the test of [Phone.__init__]: ten
    characters, all of them digits for [str.isdigit]. No method lets an
    unvalidated phone in, and a refused phone leaves no trace. *)
Theorem reachable_records_valid (st : State) (a : addr) (r : RecordObj) :
  reachable st ->
  records st !! a = Some r ->
  value (name r) <> lit ""
  /\ Forall (fun p => len (value p) = 10
                      /\ Forall (fun c => char_isdigit c = true) (value p))
       (phones r).
Proof.
  intros Hreach Ha. apply reachable_store_ok in Hreach as [_ Hn Hp _].
  split; [by apply (Hn a) |].
  specialize (Hp a r Ha). rewrite Forall_forall in Hp.
  apply Forall_forall. intros p Hin. specialize (Hp p Hin).
  unfold valid_phone in Hp. apply andb_true_iff in Hp as [Hd Hl].
  apply Nat.eqb_eq in Hl. apply isdigit_forall in Hd as [_ Hd]. by split.
Qed.

Lemma reachable_records_valid_witness :
  Forall (fun p => len (value p) = 10
                   /\ Forall (fun c => char_isdigit c = true) (value p))
    [ {| id := 3; value := lit "1234567890" |} ].
Proof.
  apply (reachable_records_valid session_state 1
           {| name := {| id := 2; value := lit "John" |};
              phones := [ {| id := 3; value := lit "1234567890" |} ] |}
           session_reachable eq_refl).
Defined.



(** ** More on the address book *)

(** A new [AddressBook()] is empty: [find] gives [None] for every name
    and [delete] changes nothing; no record is touched, and, when the
    address it is given was free, the books already there keep their
    entries. *)
Theorem AddressBook_init_spec (st : State) :
  exists self st',
    AddressBook.__init__ st = Return self st'
    /\ books st' !! self = Some ∅
    /\ records st' = records st
    /\ (forall n, AddressBook.find self n st' = Return None st')
    /\ (forall n, AddressBook.delete self n st' = Return tt st')
    /\ (books st !! next_id st = None ->
        forall b d, books st !! b = Some d -> books st' !! b = Some d).
Proof.
  eexists _, _. split; [reflexivity |].
  set (st' := with_books _ _).
  assert (books st' !! next_id st = Some ∅) as Hb by apply lookup_insert_eq.
  split; [exact Hb |]. split; [reflexivity |].
  split; [| split].
  - intros n. rewrite (find_eq _ _ _ _ Hb). by rewrite lookup_empty.
  - intros n. rewrite (delete_eq _ _ _ _ Hb). by rewrite lookup_empty.
  - intros Hfree b d Hd. subst st'. cbn.
    rewrite lookup_insert_ne; [done |]. intros <-. congruence.
Qed.

Lemma AddressBook_init_spec_witness :
  exists self st',
    AddressBook.__init__ john_state = Return self st'
    /\ AddressBook.find self (lit "John") st' = Return None st'
    /\ books st' !! 0 = Some {[ lit "John" := 1 ]}.
Proof.
  destruct (AddressBook_init_spec john_state)
    as (self & st' & Hrun & _ & _ & Hfind & _ & Hold).
  exists self, st'. split; [exact Hrun |]. split; [apply Hfind |].
  apply Hold; reflexivity.
Defined.

(** Deleting twice is deleting once: the second [delete(n)] leaves the
    store as the first one left it. And [delete] undoes [add_record]:
    adding a record under a name the book did not have, then deleting that
    name, gives the store back unchanged. *)
Theorem delete_twice_and_undo (st : State) (book : addr) (d : gmap str addr)
    (n : str) :
  books st !! book = Some d ->
  (exists st1,
      AddressBook.delete book n st = Return tt st1
      /\ AddressBook.delete book n st1 = Return tt st1)
  /\ (forall r o,
         records st !! r = Some o ->
         value (name o) = n ->
         d !! n = None ->
         (AddressBook.add_record book r ;;; AddressBook.delete book n) st
           = Return tt st).
Proof.
  intros Hb. split.
  - rewrite (delete_eq _ _ _ _ Hb).
    destruct (d !! n) as [x |] eqn:Hn.
    + eexists. split; [reflexivity |].
      erewrite delete_eq by apply lookup_insert_eq.
      by rewrite lookup_delete_eq.
    + exists st. split; [done |]. by rewrite (delete_eq _ _ _ _ Hb), Hn.
  - intros r o Hr Hname Hn. unfold bind.
    rewrite (add_record_eq _ _ _ _ _ Hb Hr), Hname.
    erewrite delete_eq by apply lookup_insert_eq.
    rewrite lookup_insert_eq. cbn.
    rewrite insert_insert_eq, delete_insert_eq, (delete_id _ _ Hn).
    rewrite (insert_id _ _ _ Hb). by destruct st.
Qed.

Lemma delete_twice_and_undo_witness :
  (exists st1,
      AddressBook.delete 0 (lit "John") john_state = Return tt st1
      /\ AddressBook.delete 0 (lit "John") st1 = Return tt st1)
  /\ (AddressBook.add_record 0 1 ;;; AddressBook.delete 0 (lit "John"))
       two_johns_state = Return tt two_johns_state.
Proof.
  split.
  - apply (delete_twice_and_undo john_state 0 {[ lit "John" := 1 ]}
             (lit "John") eq_refl).
  - destruct (delete_twice_and_undo two_johns_state 0 ∅ (lit "John") eq_refl)
      as [_ H].
    apply (H 1 john_obj); reflexivity.
Defined.

(** A book holds the record itself: a phone added to a record after the
    record was put in the book shows in what [find] gives back. *)
Theorem record_changes_show_in_book (st : State) (book r : addr)
    (d : gmap str addr) (o : RecordObj) (s : str) :
  books st !! book = Some d ->
  records st !! r = Some o ->
  isdigit s = true ->
  len s = 10 ->
  exists st',
    (AddressBook.add_record book r ;;;
     Record.add_phone r s ;;;
     found <- AddressBook.find book (value (name o)) ;;
     match found with
     | Some x => Record.__str__ x
     | None => ret (lit "")
     end) st =
      Return (lit "Contact name: " ++ value (name o) ++ lit ", phones: "
              ++ join (lit "; ") (map value (phones o) ++ [s])) st'.
Proof.
  intros Hb Hr Hd Hl. apply Nat.eqb_eq in Hl. eexists.
  unfold bind at 1. rewrite (add_record_eq _ _ _ _ _ Hb Hr).
  set (st1 := with_books _ _).
  assert (records st1 !! r = Some o) as Hr1 by done.
  unfold bind at 1. rewrite (add_phone_eq _ _ _ Hr1), Hd, Hl. cbn [andb].
  set (st2 := with_records _ _).
  assert (books st2 !! book = Some (<[value (name o) := r]> d)) as Hb2
    by apply lookup_insert_eq.
  unfold bind at 1. rewrite (find_eq _ _ _ _ Hb2), lookup_insert_eq.
  unfold Record.__str__, bind.
  erewrite get_record_eq by apply lookup_insert_eq.
  unfold ret. cbn [name phones]. by rewrite map_app.
Qed.

Lemma record_changes_show_in_book_witness :
  exists st',
    (AddressBook.add_record 0 6 ;;;
     Record.add_phone 6 (lit "5555555555") ;;;
     found <- AddressBook.find 0 (lit "John") ;;
     match found with
     | Some x => Record.__str__ x
     | None => ret (lit "")
     end) two_johns_state =
      Return (lit "Contact name: John, phones: 9876543210; 5555555555") st'.
Proof.
  destruct (record_changes_show_in_book two_johns_state 0 6 ∅ other_john
              (lit "5555555555") eq_refl eq_refl eq_refl eq_refl)
    as [st' H].
  exists st'. exact H.
Defined.
